(** * vafast-compress: the compression middleware of [src/src/main.ts]

    A shallow embedding of [compression] (encoding negotiation, the
    compressibility gates, the buffered compressor with its cache, the
    [Vary] merge of the response rewriter) and the properties the
    specification states about it.

    Conventions.
    - A header value is a ByteString (every character is a byte), so it is
      a [string] of 8-bit [ascii] characters.
    - A body is a sequence of bytes, [list Z] with every element in 0..255.
    - The text [TextDecoder.decode] returns is a list of Unicode scalar
      values ([list Z]); the decoder produces no lone surrogate, so two
      decoded texts are the same JavaScript string exactly when their lists
      of scalar values are equal.
    - [node:zlib] and [./compression-stream] are external: the middleware
      is stated over the class [NodeZlib] of their entry points. *)

From Stdlib Require Import ZArith List String Ascii Lia Bool.
From stdpp Require Import gmap strings list fin_maps.

Local Open Scope string_scope.
Local Open Scope list_scope.
Local Open Scope Z_scope.

(* ===================================================================== *)
(** * Part I: definitions                                                 *)
(* ===================================================================== *)

(** ** The JavaScript string and array methods the middleware calls *)

Module JS.

(** [s.startsWith(p)]; also the test a regular expression makes for a
    literal at the current position. *)
Fixpoint startsWith (p s : string) : bool :=
  match p, s with
  | EmptyString, _ => true
  | String _ _, EmptyString => false
  | String a p', String b s' => Ascii.eqb a b && startsWith p' s'
  end.

(** [s.split(sep)] for a separator that is not empty.  [skip] counts the
    characters of a separator just matched that are still to be passed
    over; the head of the result is the piece being read. *)
Fixpoint split_from (sep : string) (skip : nat) (s : string) : list string :=
  match s with
  | EmptyString => [EmptyString]
  | String c s' =>
      match skip with
      | S k => split_from sep k s'
      | O =>
          if startsWith sep s
          then EmptyString :: split_from sep (String.length sep - 1) s'
          else match split_from sep 0 s' with
               | piece :: rest => String c piece :: rest
               | [] => [String c EmptyString]
               end
      end
  end.

Definition split (sep s : string) : list string := split_from sep 0 s.

(** [l.join(sep)]. *)
Fixpoint join (sep : string) (l : list string) : string :=
  match l with
  | [] => EmptyString
  | [x] => x
  | x :: rest => x +:+ sep +:+ join sep rest
  end.

(** White space of [String.prototype.trim] among the characters a
    ByteString can hold: TAB, LF, VT, FF, CR, SPACE and NBSP. *)
Definition isWhiteSpace (c : ascii) : bool :=
  let n := Z.of_nat (nat_of_ascii c) in
  ((9 <=? n) && (n <=? 13)) || (n =? 32) || (n =? 160).

(** The string without its leading, and without its trailing, characters
    that satisfy [p]. *)
Fixpoint stripStart (p : ascii -> bool) (s : string) : string :=
  match s with
  | EmptyString => EmptyString
  | String c s' => if p c then stripStart p s' else s
  end.

Fixpoint stripEnd (p : ascii -> bool) (s : string) : string :=
  match s with
  | EmptyString => EmptyString
  | String c s' =>
      match stripEnd p s' with
      | EmptyString => if p c then EmptyString else String c EmptyString
      | t => String c t
      end
  end.

(** [s.trim()]. *)
Definition trim (s : string) : string :=
  stripEnd isWhiteSpace (stripStart isWhiteSpace s).

(** [s.slice(n)]: the string without its first [n] characters. *)
Fixpoint drop (n : nat) (s : string) : string :=
  match n, s with
  | O, _ => s
  | S _, EmptyString => EmptyString
  | S n', String _ s' => drop n' s'
  end.

(** [toLowerCase] on one character of a ByteString: A-Z, and the Latin-1
    capitals U+00C0..U+00DE other than the multiplication sign U+00D7. *)
Definition lowerChar (c : ascii) : ascii :=
  let n := Z.of_nat (nat_of_ascii c) in
  if ((65 <=? n) && (n <=? 90))
     || ((192 <=? n) && (n <=? 222) && negb (n =? 215))
  then ascii_of_nat (Z.to_nat (n + 32))
  else c.

Fixpoint toLowerCase (s : string) : string :=
  match s with
  | EmptyString => EmptyString
  | String c s' => String (lowerChar c) (toLowerCase s')
  end.

(** [l.includes(x)] on an array of strings. *)
Definition includes (l : list string) (x : string) : bool :=
  existsb (String.eqb x) l.

(** [l.indexOf(x)]: the first index holding [x], or -1. *)
Fixpoint indexOf (l : list string) (x : string) : Z :=
  match l with
  | [] => -1
  | y :: rest =>
      if String.eqb y x then 0
      else let i := indexOf rest x in if i <? 0 then -1 else i + 1
  end.

(** [l.filter((value, index, array) => f(value, index, array))], the
    callback applied at the indices [i], [i+1], ... of [rest]. *)
Fixpoint filter_from {A} (f : A -> Z -> bool) (i : Z) (rest : list A) : list A :=
  match rest with
  | [] => []
  | x :: rest' =>
      if f x i then x :: filter_from f (i + 1) rest'
      else filter_from f (i + 1) rest'
  end.

Definition filter_indexed {A} (f : A -> Z -> list A -> bool) (l : list A) : list A :=
  filter_from (fun x i => f x i l) 0 l.

(** A value is truthy unless it is null, undefined or the empty string. *)
Definition truthy (v : option string) : bool :=
  match v with
  | None => false
  | Some s => negb (String.eqb s EmptyString)
  end.

(** [s.includes(c)] for a single character [c]. *)
Fixpoint hasChar (c : ascii) (s : string) : bool :=
  match s with
  | EmptyString => false
  | String d s' => Ascii.eqb c d || hasChar c s'
  end.

End JS.

(** ** [new TextDecoder().decode(buffer)] and the UTF-8 encoding of a string

    The decoder is the WHATWG UTF-8 decoder with its default options: not
    fatal (a malformed sequence decodes to U+FFFD), and a leading byte
    order mark is dropped. *)

Module Utf8.

Definition REPLACEMENT : Z := 0xFFFD.

Record decoder := Decoder {
  code_point : Z;
  bytes_seen : Z;
  bytes_needed : Z;
  lower : Z;
  upper : Z
}.

Definition initial : decoder := Decoder 0 0 0 0x80 0xBF.

(** One byte read while no sequence is open: the new state, and the
    scalar values emitted. *)
Definition lead (b : Z) : decoder * list Z :=
  if b <=? 0x7F then (initial, [b])
  else if (0xC2 <=? b) && (b <=? 0xDF)
  then (Decoder (Z.land b 0x1F) 0 1 0x80 0xBF, [])
  else if (0xE0 <=? b) && (b <=? 0xEF)
  then (Decoder (Z.land b 0xF) 0 2
          (if b =? 0xE0 then 0xA0 else 0x80)
          (if b =? 0xED then 0x9F else 0xBF), [])
  else if (0xF0 <=? b) && (b <=? 0xF4)
  then (Decoder (Z.land b 0x7) 0 3
          (if b =? 0xF0 then 0x90 else 0x80)
          (if b =? 0xF4 then 0x8F else 0xBF), [])
  else (initial, [REPLACEMENT]).

(** The decoder's handler.  A byte outside the expected range closes the
    open sequence with U+FFFD and is read again as a lead byte. *)
Definition handler (d : decoder) (b : Z) : decoder * list Z :=
  if bytes_needed d =? 0 then lead b
  else if negb ((lower d <=? b) && (b <=? upper d))
  then let '(d', out) := lead b in (d', REPLACEMENT :: out)
  else
    let cp := Z.lor (Z.shiftl (code_point d) 6) (Z.land b 0x3F) in
    if bytes_seen d + 1 =? bytes_needed d
    then (initial, [cp])
    else (Decoder cp (bytes_seen d + 1) (bytes_needed d) 0x80 0xBF, []).

Fixpoint run (d : decoder) (bytes : list Z) : list Z :=
  match bytes with
  | [] => if bytes_needed d =? 0 then [] else [REPLACEMENT]
  | b :: rest => let '(d', out) := handler d b in out ++ run d' rest
  end.

(** [textDecoder.decode(buffer)]. *)
Definition decode (buffer : list Z) : list Z :=
  match run initial buffer with
  | cp :: rest => if cp =? 0xFEFF then rest else cp :: rest
  | [] => []
  end.

(** The UTF-8 bytes of one scalar value, and of a string. *)
Definition encode_scalar (cp : Z) : list Z :=
  if cp <? 0x80 then [cp]
  else if cp <? 0x800
  then [Z.lor 0xC0 (Z.shiftr cp 6); Z.lor 0x80 (Z.land cp 0x3F)]
  else if cp <? 0x10000
  then [Z.lor 0xE0 (Z.shiftr cp 12);
        Z.lor 0x80 (Z.land (Z.shiftr cp 6) 0x3F);
        Z.lor 0x80 (Z.land cp 0x3F)]
  else [Z.lor 0xF0 (Z.shiftr cp 18);
        Z.lor 0x80 (Z.land (Z.shiftr cp 12) 0x3F);
        Z.lor 0x80 (Z.land (Z.shiftr cp 6) 0x3F);
        Z.lor 0x80 (Z.land cp 0x3F)].

Definition encode (text : list Z) : list Z := flat_map encode_scalar text.

(** The scalar values of a ByteString of ASCII characters. *)
Fixpoint of_string (s : string) : list Z :=
  match s with
  | EmptyString => []
  | String c s' => Z.of_nat (nat_of_ascii c) :: of_string s'
  end.

(** The Unicode scalar values: the code points that are not surrogates. *)
Definition scalar (cp : Z) : Prop :=
  0 <= cp < 0xD800 \/ 0xE000 <= cp < 0x110000.

End Utf8.

(** ** [createHash('md5').update(text).digest('hex')] (RFC 1321) *)

Module MD5.

Definition add32 (a b : Z) : Z := (a + b) mod 2 ^ 32.
Definition not32 (a : Z) : Z := Z.lxor a 0xFFFFFFFF.
Definition rotl32 (x c : Z) : Z :=
  Z.lor (Z.shiftl x c mod 2 ^ 32) (Z.shiftr x (32 - c)).

Definition S_table : list Z :=
  [7; 12; 17; 22; 7; 12; 17; 22; 7; 12; 17; 22; 7; 12; 17; 22;
   5; 9; 14; 20; 5; 9; 14; 20; 5; 9; 14; 20; 5; 9; 14; 20;
   4; 11; 16; 23; 4; 11; 16; 23; 4; 11; 16; 23; 4; 11; 16; 23;
   6; 10; 15; 21; 6; 10; 15; 21; 6; 10; 15; 21; 6; 10; 15; 21].

Definition K_table : list Z :=
  [0xd76aa478; 0xe8c7b756; 0x242070db; 0xc1bdceee;
   0xf57c0faf; 0x4787c62a; 0xa8304613; 0xfd469501;
   0x698098d8; 0x8b44f7af; 0xffff5bb1; 0x895cd7be;
   0x6b901122; 0xfd987193; 0xa679438e; 0x49b40821;
   0xf61e2562; 0xc040b340; 0x265e5a51; 0xe9b6c7aa;
   0xd62f105d; 0x02441453; 0xd8a1e681; 0xe7d3fbc8;
   0x21e1cde6; 0xc33707d6; 0xf4d50d87; 0x455a14ed;
   0xa9e3e905; 0xfcefa3f8; 0x676f02d9; 0x8d2a4c8a;
   0xfffa3942; 0x8771f681; 0x6d9d6122; 0xfde5380c;
   0xa4beea44; 0x4bdecfa9; 0xf6bb4b60; 0xbebfbc70;
   0x289b7ec6; 0xeaa127fa; 0xd4ef3085; 0x04881d05;
   0xd9d4d039; 0xe6db99e5; 0x1fa27cf8; 0xc4ac5665;
   0xf4292244; 0x432aff97; 0xab9423a7; 0xfc93a039;
   0x655b59c3; 0x8f0ccc92; 0xffeff47d; 0x85845dd1;
   0x6fa87e4f; 0xfe2ce6e0; 0xa3014314; 0x4e0811a1;
   0xf7537e82; 0xbd3af235; 0x2ad7d2bb; 0xeb86d391].

(** The [n] low bytes of [x], least significant first. *)
Fixpoint le_bytes (n : nat) (x : Z) : list Z :=
  match n with
  | O => []
  | S n' => x mod 256 :: le_bytes n' (x / 256)
  end.

Fixpoint le_word (bytes : list Z) : Z :=
  match bytes with
  | [] => 0
  | b :: rest => b + 256 * le_word rest
  end.

(** The sixteen 32-bit words of a 64-byte block. *)
Fixpoint words (n : nat) (block : list Z) : list Z :=
  match n with
  | O => []
  | S n' => le_word (firstn 4 block) :: words n' (skipn 4 block)
  end.

Definition padding (len : Z) : list Z :=
  0x80 :: repeat 0 (Z.to_nat ((55 - len) mod 64)).

Definition pad (msg : list Z) : list Z :=
  let len := Z.of_nat (List.length msg) in
  msg ++ padding len ++ le_bytes 8 ((8 * len) mod 2 ^ 64).

Definition state : Type := Z * Z * Z * Z.

Definition round (M : list Z) (st : state) (i : Z) : state :=
  let '(A, B, C, D) := st in
  let '(F, g) :=
    if i <? 16 then (Z.lor (Z.land B C) (Z.land (not32 B) D), i)
    else if i <? 32
    then (Z.lor (Z.land D B) (Z.land (not32 D) C), (5 * i + 1) mod 16)
    else if i <? 48 then (Z.lxor B (Z.lxor C D), (3 * i + 5) mod 16)
    else (Z.lxor C (Z.lor B (not32 D)), (7 * i) mod 16) in
  let F' := add32 (add32 (add32 F A) (nth (Z.to_nat i) K_table 0))
                  (nth (Z.to_nat g) M 0) in
  (D, add32 B (rotl32 F' (nth (Z.to_nat i) S_table 0)), B, C).

Definition block (st : state) (bytes : list Z) : state :=
  let M := words 16 bytes in
  let '(a0, b0, c0, d0) := st in
  let '(A, B, C, D) :=
    fold_left (round M) (map Z.of_nat (seq 0 64)) st in
  (add32 a0 A, add32 b0 B, add32 c0 C, add32 d0 D).

Fixpoint blocks (n : nat) (st : state) (bytes : list Z) : state :=
  match n with
  | O => st
  | S n' => blocks n' (block st (firstn 64 bytes)) (skipn 64 bytes)
  end.

Definition digest (msg : list Z) : list Z :=
  let padded := pad msg in
  let '(a, b, c, d) :=
    blocks (List.length padded / 64)%nat
           (0x67452301, 0xefcdab89, 0x98badcfe, 0x10325476) padded in
  le_bytes 4 a ++ le_bytes 4 b ++ le_bytes 4 c ++ le_bytes 4 d.

Definition hex_digit (n : Z) : ascii :=
  if n <? 10 then ascii_of_nat (Z.to_nat (48 + n))
  else ascii_of_nat (Z.to_nat (87 + n)).

Fixpoint hex (bytes : list Z) : string :=
  match bytes with
  | [] => EmptyString
  | b :: rest => String (hex_digit (b / 16)) (String (hex_digit (b mod 16)) (hex rest))
  end.

(** [createHash('md5').update(text).digest('hex')], the text hashed in
    its UTF-8 encoding. *)
Definition md5_hex (text : list Z) : string := hex (digest (Utf8.encode text)).

End MD5.

(** ** [./cache]: the expiring store behind [cacheStore]

    The module is imported by [main.ts] and is not among the sources; its
    three operations follow the specification's contract (sections 3 and
    4.1).  Every operation reads the clock once: [now] is that reading, in
    the unit the TTL is given in. *)

Module Cache.

(** Modelled from the spec: the cache entry of [./cache] (the value, its
    creation timestamp and its time-to-live; the key is the map's). *)
Record entry := Entry {
  value : list Z;
  createdAt : Z;
  ttl : Z
}.

(** Modelled from the spec: the visibility rule of [./cache], an entry is
    visible to lookups only while [now < createdAt + TTL]. *)
Definition live (now : Z) (e : entry) : bool := now <? createdAt e + ttl e.

(** Modelled from the spec: [has(key)] of [./cache]; an expired entry is
    treated as absent and removed as a side effect of the check. *)
Definition has (now : Z) (store : gmap string entry) (key : string)
  : bool * gmap string entry :=
  match store !! key with
  | Some e => if live now e then (true, store) else (false, delete key store)
  | None => (false, store)
  end.

(** Modelled from the spec: [get(key)] of [./cache], the value or absent,
    with the same lazy expiration as [has]. *)
Definition get (now : Z) (store : gmap string entry) (key : string)
  : option (list Z) * gmap string entry :=
  match store !! key with
  | Some e => if live now e then (Some (value e), store) else (None, delete key store)
  | None => (None, store)
  end.

(** Modelled from the spec: [set(key, value, ttlSeconds)] of [./cache];
    it overwrites any entry of the key and restarts its TTL clock. *)
Definition set (now : Z) (store : gmap string entry) (key : string)
    (v : list Z) (ttlSeconds : Z) : gmap string entry :=
  <[key := Entry v now ttlSeconds]> store.

(** Modelled from the spec: what a lookup of [key] at time [now] can
    observe of a store of [./cache]. *)
Definition visible (now : Z) (store : gmap string entry) (key : string)
  : option (list Z) :=
  match store !! key with
  | Some e => if live now e then Some (value e) else None
  | None => None
  end.

End Cache.

(** ** [types.ts] and the Fetch objects the middleware handles *)

Inductive CompressionEncoding := br | deflate | gzip.

Definition token (e : CompressionEncoding) : string :=
  match e with
  | br => "br"
  | deflate => "deflate"
  | gzip => "gzip"
  end.

(** [ZlibOptions]: an object of numeric settings ([level], [memLevel], ...). *)
Definition ZlibOptions : Type := gmap string Z.

(** [BrotliOptions]: [params], keyed by the numeric parameter ids, and the
    other numeric settings. *)
Record BrotliOptions := {
  params : option (gmap Z Z);
  brotli_settings : gmap string Z
}.

Inductive LifeCycle := before | after.

(** [CompressionOptions & LifeCycleOptions & CacheOptions]; every property
    is optional. *)
Module Opt.
Record t := {
  brotliOptions : option BrotliOptions;
  zlibOptions : option ZlibOptions;
  encodings : option (list CompressionEncoding);
  disableByHeader : option bool;
  threshold : option Z;
  compressStream : option bool;
  as_ : option LifeCycle;
  TTL : option Z
}.

(** The object [{}]. *)
Definition empty : t := Build_t None None None None None None None None.

(** [options?.property]. *)
Definition prop {A} (f : t -> option A) (options : option t) : option A :=
  match options with
  | Some o => f o
  | None => None
  end.
End Opt.

(** [a ?? b]. *)
Definition nullish {A} (a : option A) (b : A) : A :=
  match a with
  | Some x => x
  | None => b
  end.

Notation "a ?? b" := (nullish a b) (at level 45, left associativity).

(** A [Headers] object: names are case-insensitive (kept in lower case),
    and [set] strips the HTTP white space around the value. *)
Module Headers.

Definition isHttpWhitespace (c : ascii) : bool :=
  let n := Z.of_nat (nat_of_ascii c) in
  (n =? 9) || (n =? 10) || (n =? 13) || (n =? 32).

Definition normalize (v : string) : string :=
  JS.stripEnd isHttpWhitespace (JS.stripStart isHttpWhitespace v).

Definition get (h : gmap string string) (name : string) : option string :=
  h !! JS.toLowerCase name.

Definition set (h : gmap string string) (name value : string) : gmap string string :=
  <[JS.toLowerCase name := normalize value]> h.

End Headers.

(** The body a [Response] was built with: none, bytes (a string, a
    buffer, a typed array), or a stream with the chunks it yields. *)
Inductive Body :=
| BodyNull
| BodyBytes (bytes : list Z)
| BodyStream (chunks : list (list Z)).

(** [response.body instanceof ReadableStream].  [response.body] is
    [null] for a response built without a body and a [ReadableStream]
    for every other one, whatever the body was built from. *)
Definition isReadableStream (b : Body) : bool :=
  match b with
  | BodyNull => false
  | BodyBytes _ => true
  | BodyStream _ => true
  end.

(** [await response.clone().arrayBuffer()]. *)
Definition arrayBuffer (b : Body) : list Z :=
  match b with
  | BodyNull => []
  | BodyBytes bytes => bytes
  | BodyStream chunks => concat chunks
  end.

(** The chunks [response.body] yields when it is read as a stream: those
    of the stream the body was built with, and the bytes, in one chunk,
    of a body built from bytes (no chunk when there is no byte). *)
Definition streamChunks (b : Body) : list (list Z) :=
  match b with
  | BodyStream chunks => chunks
  | BodyBytes [] => []
  | BodyBytes bytes => [bytes]
  | BodyNull => []
  end.

(** A [Response].  The constructor of [Response] gives a body to no
    response with a null body status; the record does not say so, and
    [newResponse] below is where the middleware meets that rule. *)
Record Response := {
  status : Z;
  statusText : string;
  headers : gmap string string;
  body : Body
}.

(** [response.ok]. *)
Definition ok (r : Response) : bool := (200 <=? status r) && (status r <=? 299).

(** The null body statuses of Fetch: a response with one of them has no
    body. *)
Definition nullBodyStatus (status : Z) : bool :=
  (status =? 101) || (status =? 103) || (status =? 204) || (status =? 205)
  || (status =? 304).

Definition isNull (b : Body) : bool :=
  match b with
  | BodyNull => true
  | _ => false
  end.

Record Request := {
  req_headers : gmap string string
}.

(** A call either returns or throws. *)
Inductive Completion (A : Type) :=
| Normal (a : A)
| Throw (error : string).

Arguments Normal {A} a.
Arguments Throw {A} error.

(** ** The external modules *)

(** [constants] of [node:zlib]. *)
Module constants.
Definition BROTLI_PARAM_MODE : Z := 0.
Definition BROTLI_MODE_GENERIC : Z := 0.
Definition BROTLI_PARAM_QUALITY : Z := 1.
Definition BROTLI_DEFAULT_QUALITY : Z := 11.
End constants.

(** The synchronous compressors of [node:zlib], and the transform that
    [stream.pipeThrough(CompressionStream(encoding, options))] applies to
    the chunks of a stream ([./compression-stream]). *)
Class NodeZlib := {
  brotliCompressSync : list Z -> BrotliOptions -> Completion (list Z);
  gzipSync : list Z -> ZlibOptions -> Completion (list Z);
  deflateSync : list Z -> ZlibOptions -> Completion (list Z);
  CompressionStream :
    CompressionEncoding -> option Opt.t -> list (list Z) -> list (list Z)
}.

(** The state the middleware instances of a process share: the module
    level [cacheStore], and (for the statements only) the log of the calls
    made to the compressors of [node:zlib], oldest first. *)
Record World := {
  cacheStore : gmap string Cache.entry;
  zlibCalls : list (CompressionEncoding * list Z)
}.

(** The clock readings of one run of [getOrCompress]: the one [has]
    makes, and the one the [get] or [set] that follows it makes. *)
Record Clock := {
  at_has : Z;
  at_next : Z
}.

(** ** The regular expression [defaultCompressibleTypes]

    [/^text\/(?!event-stream)|(?:\+|\/)json(?:;|$)|(?:\+|\/)text(?:;|$)|(?:\+|\/)xml(?:;|$)|octet-stream(?:;|$)/u] *)

Module Regex.

(** [(?:;|$)] at the start of [s]. *)
Definition semicolon_or_end (s : string) : bool :=
  String.eqb s EmptyString || JS.startsWith ";" s.

(** [^text\/(?!event-stream)], tried at the start of the input. *)
Definition text_type (s : string) : bool :=
  JS.startsWith "text/" s && negb (JS.startsWith "event-stream" (JS.drop 5 s)).

(** [(?:\+|\/)w(?:;|$)] at the start of [s]. *)
Definition suffix_at (w s : string) : bool :=
  (JS.startsWith ("+" +:+ w) s || JS.startsWith ("/" +:+ w) s)
  && semicolon_or_end (JS.drop (1 + String.length w) s).

(** [octet-stream(?:;|$)] at the start of [s]. *)
Definition octet_stream_at (s : string) : bool :=
  JS.startsWith "octet-stream" s && semicolon_or_end (JS.drop 12 s).

(** The alternatives that are not anchored, tried at one position. *)
Definition floating_at (s : string) : bool :=
  suffix_at "json" s || suffix_at "text" s || suffix_at "xml" s
  || octet_stream_at s.

(** A match of [p] at some position of [s], the end included. *)
Fixpoint search (p : string -> bool) (s : string) : bool :=
  p s || match s with
         | EmptyString => false
         | String _ s' => search p s'
         end.

(** [defaultCompressibleTypes.test(s)]. *)
Definition test (s : string) : bool := text_type s || search floating_at s.

End Regex.

(** What [defaultCompressibleTypes] matches, read off the regular
    expression: a value that starts with [text/] not followed at once by
    [event-stream]; or that holds, anywhere, a [+] or [/] followed by
    [json], [text] or [xml], or [octet-stream], and then a semicolon or
    the end of the value. *)
Definition matches_classifier (contentType : string) : Prop :=
  (exists rest, contentType = "text/" +:+ rest
                /\ JS.startsWith "event-stream" rest = false)
  \/ (exists pre sep word post,
        contentType = pre +:+ sep +:+ word +:+ post
        /\ (sep = "+" \/ sep = "/")
        /\ (word = "json" \/ word = "text" \/ word = "xml")
        /\ (post = EmptyString \/ exists rest, post = ";" +:+ rest))
  \/ (exists pre post,
        contentType = pre +:+ "octet-stream" +:+ post
        /\ (post = EmptyString \/ exists rest, post = ";" +:+ rest)).

(** ** [compression(options)] *)

Section Compression.

Context `{NodeZlib}.
Variable options : option Opt.t.

(** [{ ...{ level: 6 }, ...options?.zlibOptions }] *)
Definition zlibOptions : ZlibOptions :=
  (Opt.prop Opt.zlibOptions options ?? ∅) ∪ {[ "level" := 6 ]}.

(** [{ ...{ params: {...} }, ...options?.brotliOptions }] *)
Definition brotliOptions : BrotliOptions :=
  let defaults : gmap Z Z :=
    <[constants.BROTLI_PARAM_QUALITY := constants.BROTLI_DEFAULT_QUALITY]>
      {[ constants.BROTLI_PARAM_MODE := constants.BROTLI_MODE_GENERIC ]} in
  match Opt.prop Opt.brotliOptions options with
  | Some given =>
      {| params := Some (params given ?? defaults);
         brotli_settings := brotli_settings given |}
  | None => {| params := Some defaults; brotli_settings := ∅ |}
  end.

Definition defaultEncodings : list CompressionEncoding :=
  Opt.prop Opt.encodings options ?? [br; gzip; deflate].

Definition defaultCompressibleTypes : string -> bool := Regex.test.

Definition lifeCycleType : LifeCycle := Opt.prop Opt.as_ options ?? after.

Definition threshold : Z := Opt.prop Opt.threshold options ?? 1024.

Definition cacheTTL : Z := Opt.prop Opt.TTL options ?? 24 * 60 * 60.

Definition disableByHeader : bool := Opt.prop Opt.disableByHeader options ?? true.

Definition compressStream : bool := Opt.prop Opt.compressStream options ?? true.

Definition compressors (algorithm : CompressionEncoding) (buffer : list Z)
  : Completion (list Z) :=
  match algorithm with
  | br => brotliCompressSync buffer brotliOptions
  | gzip => gzipSync buffer zlibOptions
  | deflate => deflateSync buffer zlibOptions
  end.

(** The text [`${algorithm}:${textDecoder.decode(buffer)}`] of line 81,
    as the scalar values [md5] is given. *)
Definition keyText (algorithm : CompressionEncoding) (buffer : list Z) : list Z :=
  Utf8.of_string (token algorithm) ++ [58] ++ Utf8.decode buffer.

(** [md5(`${algorithm}:${textDecoder.decode(buffer)}`)]. *)
Definition cacheKey (algorithm : CompressionEncoding) (buffer : list Z) : string :=
  MD5.md5_hex (keyText algorithm buffer).

(** [getOrCompress(algorithm, buffer)]: what it returns ([None] is
    [undefined]) or throws, and the state it leaves. *)
Definition getOrCompress (algorithm : CompressionEncoding) (buffer : list Z)
    (clock : Clock) (w : World) : Completion (option (list Z)) * World :=
  let key := cacheKey algorithm buffer in
  let '(present, store1) := Cache.has (at_has clock) (cacheStore w) key in
  if present then
    let '(cached, store2) := Cache.get (at_next clock) store1 key in
    (Normal cached, {| cacheStore := store2; zlibCalls := zlibCalls w |})
  else
    let calls := zlibCalls w ++ [(algorithm, buffer)] in
    match compressors algorithm buffer with
    | Throw error =>
        (Throw error, {| cacheStore := store1; zlibCalls := calls |})
    | Normal compressedOutput =>
        (Normal (Some compressedOutput),
         {| cacheStore :=
              Cache.set (at_next clock) store1 key compressedOutput cacheTTL;
            zlibCalls := calls |})
    end.

(** The [Vary] header of the rewritten response (lines 166-191). *)
Definition varyTokens (vary : string) : list string :=
  map (fun v => JS.toLowerCase (JS.trim v)) (JS.split "," vary).

Definition mergedVary (headerValueArray : list string) : string :=
  JS.join ", "
    (JS.filter_indexed (fun value index array => JS.indexOf array value =? index)
       (headerValueArray ++ ["accept-encoding"])).

Definition withVary (headers : gmap string string) : gmap string string :=
  let vary := Headers.get headers "Vary" in
  if JS.truthy vary then
    let headerValueArray := varyTokens (vary ?? EmptyString) in
    if negb (JS.includes headerValueArray "*")
    then Headers.set headers "Vary" (mergedVary headerValueArray)
    else headers
  else Headers.set headers "Vary" "accept-encoding".

(** The response that lines 166-204 build when the constructor of
    [Response] accepts its arguments: the status and status text of
    [response], its headers with [Vary] and [Content-Encoding] rewritten,
    and the compressed body. *)
Definition rewritten (encoding : CompressionEncoding) (compressed : Body)
    (response : Response) : Response :=
  {| status := status response;
     statusText := statusText response;
     headers := Headers.set (withVary (headers response))
                  "Content-Encoding" (token encoding);
     body := compressed |}.

(** [new Response(body, { status, statusText, headers })] (lines
    200-204).  The constructor throws a [RangeError] for a status outside
    200..599, and a [TypeError] when a body is given together with a
    null body status; the status text, copied from a response, is one it
    accepts. *)
Definition newResponse (encoding : CompressionEncoding) (compressed : Body)
    (response : Response) : Completion Response :=
  if (status response <? 200) || (599 <? status response)
  then Throw "RangeError"
  else if negb (isNull compressed) && nullBodyStatus (status response)
  then Throw "TypeError"
  else Normal (rewritten encoding compressed response).

(** [acceptEncodings] and [encodings] (lines 114-118). *)
Definition acceptEncodings (req : Request) : list string :=
  match Headers.get (req_headers req) "accept-encoding" with
  | Some v => JS.split ", " v
  | None => []
  end.

Definition negotiated (req : Request) : list CompressionEncoding :=
  List.filter (fun encoding => JS.includes (acceptEncodings req) (token encoding))
    defaultEncodings.

(** The middleware [compression(options)] returns, applied to a request
    and to the response [next()] resolves to. *)
Definition compression (req : Request) (next : Response) (clock : Clock)
    (w : World) : Completion Response * World :=
  if disableByHeader && JS.truthy (Headers.get (req_headers req) "x-no-compression")
  then (Normal next, w)
  else
    let response := next in
    if negb (ok response) then (Normal response, w)
    else
      match negotiated req with
      | [] => (Normal response, w)
      | encoding :: _ =>
          let contentType :=
            Headers.get (headers response) "Content-Type" ?? EmptyString in
          if compressStream && isReadableStream (body response)
          then
            let compressed :=
              BodyStream (CompressionStream encoding options
                            (streamChunks (body response))) in
            (newResponse encoding compressed response, w)
          else
            let buffer := arrayBuffer (body response) in
            if Z.of_nat (List.length buffer) <? threshold
            then (Normal response, w)
            else
              let isCompressible :=
                String.eqb contentType EmptyString
                || defaultCompressibleTypes contentType in
              if negb isCompressible then (Normal response, w)
              else
                match getOrCompress encoding buffer clock w with
                | (Throw error, w') => (Throw error, w')
                | (Normal compressed, w') =>
                    (newResponse encoding (BodyBytes (compressed ?? []))
                       response, w')
                end
      end.

End Compression.

(** A [Vary] token as line 172 leaves it: it holds no comma, [trim] and
    [toLowerCase] change nothing of it, and neither would stripping HTTP
    white space from its end. *)
Definition settled (t : string) : Prop :=
  JS.hasChar "," t = false
  /\ JS.toLowerCase (JS.trim t) = t
  /\ JS.stripEnd Headers.isHttpWhitespace t = t
  /\ match t with
     | EmptyString => True
     | String c _ => JS.isWhiteSpace c = false
     end.

(** The gates before [getOrCompress] (lines 103-152), all passed: no
    opt-out, an ok response, [encoding] negotiated first, the body not
    sent through [CompressionStream], a size of at least the threshold and
    a [Content-Type] that is empty, absent or compressible. *)
Definition buffered_path (options : option Opt.t) (req : Request)
    (next : Response) (encoding : CompressionEncoding) : Prop :=
  disableByHeader options
    && JS.truthy (Headers.get (req_headers req) "x-no-compression") = false
  /\ ok next = true
  /\ head (negotiated options req) = Some encoding
  /\ compressStream options && isReadableStream (body next) = false
  /\ threshold options <= Z.of_nat (List.length (arrayBuffer (body next)))
  /\ (let contentType :=
        Headers.get (headers next) "Content-Type" ?? EmptyString in
      contentType = EmptyString \/ defaultCompressibleTypes contentType = true).

(** ** The classifier as the specification words it

    The second definition of the compressible types, written from the
    sentence of the specification (section 4.3) and not from the regular
    expression: [text/*] excluding [text/event-stream]; a MIME type ending
    in [+json], [/json], [+text], [/text], [+xml] or [/xml]; or a value
    containing [octet-stream]. *)

Module Spec.

(** The MIME type of a [Content-Type] value: what stands before the
    parameters. *)
Definition mimeType (contentType : string) : string :=
  match JS.split ";" contentType with
  | t :: _ => JS.trim t
  | [] => EmptyString
  end.

Definition contains (sub s : string) : bool := Regex.search (JS.startsWith sub) s.

Definition endsWith (suffix s : string) : bool :=
  Regex.search (String.eqb suffix) s.

Definition compressible (contentType : string) : bool :=
  let t := mimeType contentType in
  (JS.startsWith "text/" t && negb (String.eqb t "text/event-stream"))
  || existsb (fun suffix => endsWith suffix t)
       ["+json"; "/json"; "+text"; "/text"; "+xml"; "/xml"]
  || contains "octet-stream" contentType.

End Spec.

(** ** Stand-ins for the external modules, for the worked examples

    [gzipSync] and [deflateSync] refuse a [level] outside -1..9, as
    [node:zlib] does, and otherwise answer a header byte, the level and the
    input stored as it is; the stream transform stores every chunk. *)

Module Example.

Definition level_of (o : ZlibOptions) : Z := (o !! "level") ?? (-1).

Definition stored (magic : Z) (buffer : list Z) (o : ZlibOptions)
  : Completion (list Z) :=
  if (-1 <=? level_of o) && (level_of o <=? 9)
  then Normal (magic :: level_of o :: buffer)
  else Throw "ERR_OUT_OF_RANGE".

#[global] Instance zlib : NodeZlib := {|
  brotliCompressSync buffer _ := Normal (0xCE :: buffer);
  gzipSync := stored 0x1F;
  deflateSync := stored 0x78;
  CompressionStream _ _ chunks := chunks
|}.

Definition request (acceptEncoding : string) : Request :=
  {| req_headers := {[ "accept-encoding" := acceptEncoding ]} |}.

Definition response (contentType : option string) (vary : option string)
    (b : Body) : Response :=
  {| status := 200;
     statusText := "OK";
     headers :=
       match contentType, vary with
       | Some c, Some v => <["content-type" := c]> {[ "vary" := v ]}
       | Some c, None => {[ "content-type" := c ]}
       | None, Some v => {[ "vary" := v ]}
       | None, None => ∅
       end;
     body := b |}.

(** [{ threshold, compressStream: false }] with a zlib level. *)
Definition buffered (threshold level : Z) : option Opt.t :=
  Some {| Opt.brotliOptions := None;
          Opt.zlibOptions := Some {[ "level" := level ]};
          Opt.encodings := None;
          Opt.disableByHeader := None;
          Opt.threshold := Some threshold;
          Opt.compressStream := Some false;
          Opt.as_ := None;
          Opt.TTL := None |}.


(** [new Response(null, { status: 204 })]. *)
Definition noContent : Response :=
  {| status := 204; statusText := "No Content"; headers := ∅; body := BodyNull |}.

Definition fresh : World := {| cacheStore := ∅; zlibCalls := [] |}.

Definition at_time (t : Z) : Clock := {| at_has := t; at_next := t |}.

(** The five bytes of "hello". *)
Definition hello : list Z := [104; 101; 108; 108; 111].

End Example.

(* ===================================================================== *)
(** * Part II: properties                                                 *)
(* ===================================================================== *)

(** ** Strings and arrays *)

Lemma startsWith_app (p r : string) : JS.startsWith p (p +:+ r) = true.
Proof.
  induction p as [|a p IH]; simpl; [reflexivity|].
  rewrite Ascii.eqb_refl. exact IH.
Qed.

Lemma startsWith_inv (p s : string) :
  JS.startsWith p s = true -> exists r, s = p +:+ r.
Proof.
  revert s. induction p as [|a p IH]; intros s Hs.
  - exists s. reflexivity.
  - destruct s as [|b s]; simpl in Hs; [discriminate|].
    apply andb_true_iff in Hs as [Hab Hps].
    apply Ascii.eqb_eq in Hab. subst b.
    destruct (IH _ Hps) as [r ->]. exists r. reflexivity.
Qed.

Lemma startsWith_spec (p s : string) :
  JS.startsWith p s = true <-> exists r, s = p +:+ r.
Proof.
  split; [apply startsWith_inv|]. intros [r ->]. apply startsWith_app.
Qed.

Lemma drop_app (p r : string) : JS.drop (String.length p) (p +:+ r) = r.
Proof. induction p as [|a p IH]; simpl; [destruct r; reflexivity | exact IH]. Qed.

Lemma search_spec (p : string -> bool) (s : string) :
  Regex.search p s = true <-> exists pre suf, s = pre +:+ suf /\ p suf = true.
Proof.
  split.
  - induction s as [|c s IH]; simpl; intros Hs.
    + rewrite orb_false_r in Hs. exists EmptyString, EmptyString. auto.
    + apply orb_true_iff in Hs as [Hs|Hs].
      * exists EmptyString, (String c s). auto.
      * destruct (IH Hs) as (pre & suf & -> & Hp).
        exists (String c pre), suf. auto.
  - intros (pre & suf & -> & Hp).
    induction pre as [|c pre IH]; simpl.
    + destruct suf; simpl; rewrite Hp; reflexivity.
    + rewrite IH. apply orb_true_r.
Qed.

Lemma includes_spec (l : list string) (x : string) :
  JS.includes l x = true <-> x ∈ l.
Proof.
  unfold JS.includes. rewrite existsb_exists, list_elem_of_In. split.
  - intros (y & Hy & Heq). apply String.eqb_eq in Heq. subst. exact Hy.
  - intros Hx. exists x. split; [exact Hx | apply String.eqb_refl].
Qed.

Lemma includes_false (l : list string) (x : string) :
  JS.includes l x = false <-> x ∉ l.
Proof.
  rewrite <- includes_spec. destruct (JS.includes l x); split; congruence.
Qed.

(** [Array.prototype.filter] keeps the order of the array. *)
Lemma filter_sublist {A} (f : A -> bool) (l : list A) :
  sublist (List.filter f l) l.
Proof.
  induction l as [|x l IH]; simpl; [constructor|].
  destruct (f x); constructor; exact IH.
Qed.

(** The first element [filter] keeps is the first of the array that
    passes the test. *)
Lemma filter_first {A} (f : A -> bool) (l : list A) (e : A) :
  head (List.filter f l) = Some e <->
  exists pre post, l = pre ++ e :: post /\ f e = true
                   /\ Forall (fun x => f x = false) pre.
Proof.
  split.
  - induction l as [|x l IH]; simpl; [discriminate|].
    destruct (f x) eqn:Hx; simpl.
    + intros [= ->]. exists [], l. auto.
    + intros Hl. destruct (IH Hl) as (pre & post & -> & He & Hpre).
      exists (x :: pre), post. auto.
  - intros (pre & post & -> & He & Hpre).
    induction Hpre as [|x pre Hx _ IH]; simpl.
    + rewrite He. reflexivity.
    + rewrite Hx. exact IH.
Qed.

Lemma filter_nil_iff {A} (f : A -> bool) (l : list A) :
  List.filter f l = [] <-> Forall (fun x => f x = false) l.
Proof.
  induction l as [|x l IH]; simpl.
  - split; auto.
  - destruct (f x) eqn:Hx.
    + split; [discriminate|]. intros HF. inversion HF; congruence.
    + rewrite IH. split; [auto|]. intros HF. inversion HF; auto.
Qed.

(** ** The constructor of the rewritten response *)

Lemma newResponse_returns encoding compressed response r' :
  newResponse encoding compressed response = Normal r' ->
  r' = rewritten encoding compressed response.
Proof.
  unfold newResponse.
  destruct (_ || _); [discriminate|].
  destruct (_ && _); [discriminate|].
  intros [= <-]. reflexivity.
Qed.

(** The status of an ok response is in the range the constructor takes:
    what is left is the check of the null body statuses. *)
Lemma newResponse_ok encoding compressed response :
  ok response = true ->
  newResponse encoding compressed response
  = if negb (isNull compressed) && nullBodyStatus (status response)
    then Throw "TypeError"
    else Normal (rewritten encoding compressed response).
Proof.
  unfold ok, newResponse. intros Hok.
  apply andb_true_iff in Hok as [Hlow Hhigh].
  replace (status response <? 200) with false by lia.
  replace (599 <? status response) with false by lia.
  reflexivity.
Qed.


(** ** The shape of the middleware's result *)

Section Outcome.

Context `{NodeZlib}.
Variable options : option Opt.t.

(** Whatever the middleware returns is the response of [next()] itself,
    or that response rewritten for the first negotiated encoding. *)
Lemma compression_returns req next clock w r' w' :
  compression options req next clock w = (Normal r', w') ->
  (r' = next /\ w' = w)
  \/ exists encoding rest compressed,
       negotiated options req = encoding :: rest
       /\ r' = rewritten encoding compressed next.
Proof.
  unfold compression.
  destruct (disableByHeader options && _); [intros [= <- <-]; auto|].
  destruct (negb (ok next)); [intros [= <- <-]; auto|].
  destruct (negotiated options req) as [|encoding rest] eqn:Hneg;
    [intros [= <- <-]; auto|].
  destruct (compressStream options && _).
  { intros [= Hnew <-]. right. apply newResponse_returns in Hnew. eauto. }
  destruct (_ <? threshold options); [intros [= <- <-]; auto|].
  destruct (negb _); [intros [= <- <-]; auto|].
  destruct (getOrCompress options encoding _ clock w) as [[compressed|error] w1];
    [|discriminate].
  intros [= Hnew <-]. right. apply newResponse_returns in Hnew. eauto.
Qed.

Lemma rewritten_content_encoding encoding compressed next :
  Headers.get (headers (rewritten encoding compressed next)) "Content-Encoding"
  = Some (token encoding).
Proof.
  unfold rewritten, Headers.get, Headers.set; simpl.
  rewrite lookup_insert_eq. destruct encoding; reflexivity.
Qed.

Lemma rewritten_vary encoding compressed next :
  Headers.get (headers (rewritten encoding compressed next)) "Vary"
  = Headers.get (withVary (headers next)) "Vary".
Proof.
  unfold rewritten, Headers.get, Headers.set; simpl.
  apply lookup_insert_ne. discriminate.
Qed.

End Outcome.

(** ** C1: encoding negotiation *)

(** C1. The configured encodings are filtered to the tokens of the
    client's [Accept-Encoding] list, in configured order; the encoding
    used is the first survivor, that is the first configured encoding the
    client lists; with no survivor the response comes back as it was; and
    with [Accept-Encoding: gzip] and the encodings [br, gzip, deflate] the
    negotiated encoding is gzip, as it is br for [gzip, br]: configured
    priority wins, not the client's order. *)
Theorem C1_negotiation `{NodeZlib} (options : option Opt.t) (req : Request) :
  sublist (negotiated options req) (defaultEncodings options)
  /\ (forall e, e ∈ negotiated options req <->
                e ∈ defaultEncodings options /\ token e ∈ acceptEncodings req)
  /\ (forall e, head (negotiated options req) = Some e <->
        exists pre post,
          defaultEncodings options = pre ++ e :: post
          /\ token e ∈ acceptEncodings req
          /\ forall x, x ∈ pre -> token x ∉ acceptEncodings req)
  /\ (forall next clock w,
        negotiated options req = [] ->
        compression options req next clock w = (Normal next, w))
  /\ (forall next clock w r' w',
        compression options req next clock w = (Normal r', w') ->
        r' = next
        \/ exists e, head (negotiated options req) = Some e
             /\ Headers.get (headers r') "Content-Encoding" = Some (token e))
  /\ negotiated None (Example.request "gzip") = [gzip]
  /\ negotiated None (Example.request "gzip, br") = [br; gzip].
Proof.
  split; [apply filter_sublist|].
  split.
  { intros e. unfold negotiated.
    rewrite list_elem_of_In, filter_In, <- list_elem_of_In, includes_spec.
    reflexivity. }
  split.
  { intros e. unfold negotiated. rewrite filter_first. split.
    - intros (pre & post & Hl & He & Hpre). exists pre, post.
      split; [exact Hl|]. split; [apply includes_spec, He|].
      intros x Hx. apply includes_false.
      rewrite Forall_forall in Hpre. apply Hpre, Hx.
    - intros (pre & post & Hl & He & Hpre). exists pre, post.
      split; [exact Hl|]. split; [apply includes_spec, He|].
      apply Forall_forall. intros x Hx. apply includes_false, Hpre, Hx. }
  split.
  { intros next clock w Hnone. unfold compression. rewrite Hnone.
    destruct (disableByHeader options && _); [reflexivity|].
    destruct (negb (ok next)); reflexivity. }
  split.
  { intros next clock w r' w' Hrun.
    destruct (compression_returns _ _ _ _ _ _ _ Hrun)
      as [[-> _]|(e & rest & compressed & Hneg & ->)]; [left; reflexivity|].
    right. exists e. rewrite Hneg. split; [reflexivity|].
    apply rewritten_content_encoding. }
  split; vm_compute; reflexivity.
Qed.

(** ** The cache, and [getOrCompress] over it *)

Lemma has_miss now (store : gmap string Cache.entry) key :
  Cache.visible now store key = None ->
  exists store1,
    Cache.has now store key = (false, store1)
    /\ store1 !! key = None
    /\ (forall k, k <> key -> store1 !! k = store !! k)
    /\ (store !! key = None -> store1 = store).
Proof.
  unfold Cache.has, Cache.visible.
  destruct (store !! key) as [e|] eqn:He.
  - destruct (Cache.live now e); [discriminate|]. intros _.
    exists (delete key store). split; [reflexivity|].
    split; [apply lookup_delete_eq|].
    split; [|discriminate].
    intros k Hk. apply lookup_delete_ne. congruence.
  - intros _. exists store. auto.
Qed.

Lemma has_hit now (store : gmap string Cache.entry) key v :
  Cache.visible now store key = Some v ->
  Cache.has now store key = (true, store).
Proof.
  unfold Cache.has, Cache.visible.
  destruct (store !! key) as [e|]; [|discriminate].
  destruct (Cache.live now e); [reflexivity | discriminate].
Qed.

Lemma get_hit now (store : gmap string Cache.entry) key v :
  Cache.visible now store key = Some v ->
  Cache.get now store key = (Some v, store).
Proof.
  unfold Cache.get, Cache.visible.
  destruct (store !! key) as [e|]; [|discriminate].
  destruct (Cache.live now e); [intros [= ->]; reflexivity | discriminate].
Qed.

(** An entry set at [t0] with a time-to-live [ttl] is visible at every
    [now < t0 + ttl]. *)
Lemma visible_set t0 now (store : gmap string Cache.entry) key v ttl :
  now < t0 + ttl ->
  Cache.visible now (Cache.set t0 store key v ttl) key = Some v.
Proof.
  intros Hnow. unfold Cache.visible, Cache.set, Cache.live.
  rewrite lookup_insert_eq; simpl.
  destruct (Z.ltb_spec now (t0 + ttl)); [reflexivity | lia].
Qed.

(** Time only takes entries away: what has expired stays expired. *)
Lemma live_earlier now now' e :
  now <= now' -> Cache.live now' e = true -> Cache.live now e = true.
Proof. unfold Cache.live. rewrite !Z.ltb_lt. lia. Qed.

Section GetOrCompress.

Context `{NodeZlib}.

Lemma getOrCompress_hit options algorithm buffer clock w v :
  Cache.visible (at_has clock) (cacheStore w) (cacheKey algorithm buffer) = Some v ->
  Cache.visible (at_next clock) (cacheStore w) (cacheKey algorithm buffer) = Some v ->
  getOrCompress options algorithm buffer clock w = (Normal (Some v), w).
Proof.
  intros Hhas Hget. unfold getOrCompress.
  rewrite (has_hit _ _ _ _ Hhas), (get_hit _ _ _ _ Hget).
  destruct w; reflexivity.
Qed.

Lemma getOrCompress_miss options algorithm buffer clock w out :
  Cache.visible (at_has clock) (cacheStore w) (cacheKey algorithm buffer) = None ->
  compressors options algorithm buffer = Normal out ->
  getOrCompress options algorithm buffer clock w
  = (Normal (Some out),
     {| cacheStore :=
          Cache.set (at_next clock) (cacheStore w) (cacheKey algorithm buffer)
            out (cacheTTL options);
        zlibCalls := zlibCalls w ++ [(algorithm, buffer)] |}).
Proof.
  intros Hmiss Hout. unfold getOrCompress.
  destruct (has_miss _ _ _ Hmiss) as (store1 & -> & Hkey & Hother & _).
  rewrite Hout. do 2 f_equal. unfold Cache.set.
  apply map_eq. intros k.
  destruct (decide (k = cacheKey algorithm buffer)) as [->|Hk].
  - rewrite !lookup_insert_eq. reflexivity.
  - rewrite !lookup_insert_ne by congruence. apply Hother, Hk.
Qed.

Lemma getOrCompress_throw options algorithm buffer clock w error :
  Cache.visible (at_has clock) (cacheStore w) (cacheKey algorithm buffer) = None ->
  compressors options algorithm buffer = Throw error ->
  exists store1,
    getOrCompress options algorithm buffer clock w
    = (Throw error,
       {| cacheStore := store1;
          zlibCalls := zlibCalls w ++ [(algorithm, buffer)] |})
    /\ store1 !! cacheKey algorithm buffer = None
    /\ (forall k, k <> cacheKey algorithm buffer ->
                  store1 !! k = cacheStore w !! k)
    /\ (cacheStore w !! cacheKey algorithm buffer = None ->
        store1 = cacheStore w).
Proof.
  intros Hmiss Hthrow. unfold getOrCompress.
  destruct (has_miss _ _ _ Hmiss) as (store1 & -> & Hkey & Hother & Hsame).
  rewrite Hthrow. exists store1. auto.
Qed.

End GetOrCompress.

(** ** C2: the cache of the buffered compressor *)

(** C2. When [getOrCompress] finds no visible entry for the key of
    (algorithm, body), it calls the compressor once, stores the result
    under the key with the configured TTL and returns it; a second call
    for the same algorithm and body whose clock readings lie inside the
    TTL window returns the same bytes, calls no compressor and leaves the
    cache as it was. *)
Theorem C2_cached_compression `{NodeZlib} (options : option Opt.t)
    (algorithm : CompressionEncoding) (buffer : list Z) (clock1 clock2 : Clock)
    (w : World) (out : list Z) :
  Cache.visible (at_has clock1) (cacheStore w) (cacheKey algorithm buffer) = None ->
  compressors options algorithm buffer = Normal out ->
  at_next clock1 <= at_has clock2 ->
  at_has clock2 <= at_next clock2 ->
  at_next clock2 < at_next clock1 + cacheTTL options ->
  exists w1,
    getOrCompress options algorithm buffer clock1 w = (Normal (Some out), w1)
    /\ zlibCalls w1 = zlibCalls w ++ [(algorithm, buffer)]
    /\ cacheStore w1 !! cacheKey algorithm buffer
       = Some (Cache.Entry out (at_next clock1) (cacheTTL options))
    /\ getOrCompress options algorithm buffer clock2 w1 = (Normal (Some out), w1).
Proof.
  intros Hmiss Hout H12 Hmono Hwindow.
  eexists. split; [apply getOrCompress_miss; eassumption|].
  split; [reflexivity|].
  split; [apply lookup_insert_eq|].
  apply getOrCompress_hit; simpl; apply visible_set; lia.
Qed.

(** A run of C2: gzip of "hello" at time 100, asked for again at 200. *)
Lemma C2_cached_compression_witness :
  exists w1,
    getOrCompress (Example.buffered 1 6) gzip Example.hello
      (Example.at_time 100) Example.fresh
    = (Normal (Some (0x1F :: 6 :: Example.hello)), w1)
    /\ zlibCalls w1 = [(gzip, Example.hello)]
    /\ cacheStore w1 !! cacheKey gzip Example.hello
       = Some (Cache.Entry (0x1F :: 6 :: Example.hello) 100 86400)
    /\ getOrCompress (Example.buffered 1 6) gzip Example.hello
         (Example.at_time 200) w1
       = (Normal (Some (0x1F :: 6 :: Example.hello)), w1).
Proof.
  apply (C2_cached_compression (Example.buffered 1 6) gzip Example.hello
           (Example.at_time 100) (Example.at_time 200) Example.fresh
           (0x1F :: 6 :: Example.hello)).
  - reflexivity.
  - vm_compute. reflexivity.
  - simpl. lia.
  - simpl. lia.
  - vm_compute. reflexivity.
Defined.

Section BufferedPath.

Context `{NodeZlib}.

(** Past the gates the middleware is [getOrCompress] followed by the
    construction of the rewritten response. *)
Lemma compression_buffered options req next encoding clock w :
  buffered_path options req next encoding ->
  compression options req next clock w
  = match getOrCompress options encoding (arrayBuffer (body next)) clock w with
    | (Throw error, w') => (Throw error, w')
    | (Normal compressed, w') =>
        (newResponse encoding (BodyBytes (compressed ?? [])) next, w')
    end.
Proof.
  intros (Hopt & Hok & Hneg & Hstream & Hsize & Htype).
  unfold compression. rewrite Hopt, Hok; simpl.
  destruct (negotiated options req) as [|e rest]; [discriminate|].
  injection Hneg as ->. rewrite Hstream.
  destruct (Z.ltb_spec (Z.of_nat (List.length (arrayBuffer (body next))))
              (threshold options)) as [Hlt|_]; [lia|].
  simpl in Htype.
  destruct Htype as [-> | ->]; [|rewrite orb_true_r]; reflexivity.
Qed.

End BufferedPath.

(** ** C8: a compressor that throws *)

(** C8. On the buffered path, when no entry is visible for the key and
    the compressor throws, the middleware throws that same error: there is
    no fallback response; the compressor was called once, so nothing was
    retried; no entry is stored under the key; and the cache answers every
    later lookup, of every key, as it did before the request (it is the
    same store when the key had no entry at all, expired or not). *)
Theorem C8_compressor_failure `{NodeZlib} (options : option Opt.t)
    (req : Request) (next : Response) (encoding : CompressionEncoding)
    (clock : Clock) (w : World) (error : string) :
  let buffer := arrayBuffer (body next) in
  let key := cacheKey encoding buffer in
  buffered_path options req next encoding ->
  Cache.visible (at_has clock) (cacheStore w) key = None ->
  compressors options encoding buffer = Throw error ->
  exists w',
    compression options req next clock w = (Throw error, w')
    /\ zlibCalls w' = zlibCalls w ++ [(encoding, buffer)]
    /\ cacheStore w' !! key = None
    /\ (forall k now, at_has clock <= now ->
          Cache.visible now (cacheStore w') k = Cache.visible now (cacheStore w) k)
    /\ (cacheStore w !! key = None -> cacheStore w' = cacheStore w).
Proof.
  intros buffer key Hpath Hmiss Hthrow. subst key buffer.
  destruct (getOrCompress_throw options encoding _ clock w error Hmiss Hthrow)
    as (store1 & Hrun & Hkey & Hother & Hsame).
  eexists. split.
  { rewrite (compression_buffered _ _ _ _ _ _ Hpath), Hrun. reflexivity. }
  simpl. split; [reflexivity|]. split; [exact Hkey|]. split; [|exact Hsame].
  intros k now Hnow. unfold Cache.visible.
  destruct (decide (k = cacheKey encoding (arrayBuffer (body next)))) as [->|Hk]; [|rewrite (Hother k Hk); reflexivity].
  rewrite Hkey. unfold Cache.visible in Hmiss.
  destruct (cacheStore w !! _) as [e|]; [|reflexivity].
  destruct (Cache.live now e) eqn:Hlive; [|reflexivity].
  rewrite (live_earlier _ _ _ Hnow Hlive) in Hmiss. discriminate.
Qed.

(** A run of C8: a zlib level of 42 is out of range, so [gzipSync]
    throws. *)
Lemma C8_compressor_failure_witness :
  exists w',
    compression (Example.buffered 1 42) (Example.request "gzip")
      (Example.response (Some "text/plain") None (BodyBytes Example.hello))
      (Example.at_time 100) Example.fresh
    = (Throw "ERR_OUT_OF_RANGE", w')
    /\ zlibCalls w' = [(gzip, Example.hello)]
    /\ cacheStore w' !! cacheKey gzip Example.hello = None
    /\ (forall k now, 100 <= now ->
          Cache.visible now (cacheStore w') k = Cache.visible now ∅ k)
    /\ ((∅ : gmap string Cache.entry) !! cacheKey gzip Example.hello = None ->
        cacheStore w' = ∅).
Proof.
  apply (C8_compressor_failure (Example.buffered 1 42) (Example.request "gzip")
           (Example.response (Some "text/plain") None (BodyBytes Example.hello))
           gzip (Example.at_time 100) Example.fresh "ERR_OUT_OF_RANGE").
  - repeat split; try (vm_compute; reflexivity).
    + vm_compute. discriminate.
    + right. vm_compute. reflexivity.
  - reflexivity.
  - vm_compute. reflexivity.
Defined.

(** ** C9: the cache key is taken from the decoded text *)

(** C9. The cache key is the digest of the algorithm token, a colon and
    the text [TextDecoder] decodes the body to, so two bodies with the
    same decoded text have the same key for every algorithm; once the
    compressed bytes of the first are stored, a call for the second inside
    the TTL window returns the bytes of the first body and calls no
    compressor. *)
Theorem C9_key_from_decoded_text `{NodeZlib} (options : option Opt.t)
    (algorithm : CompressionEncoding) (buffer1 buffer2 : list Z)
    (clock1 clock2 : Clock) (w : World) (out : list Z) :
  Utf8.decode buffer1 = Utf8.decode buffer2 ->
  Cache.visible (at_has clock1) (cacheStore w) (cacheKey algorithm buffer1) = None ->
  compressors options algorithm buffer1 = Normal out ->
  at_next clock1 <= at_has clock2 ->
  at_has clock2 <= at_next clock2 ->
  at_next clock2 < at_next clock1 + cacheTTL options ->
  cacheKey algorithm buffer1
  = MD5.md5_hex (Utf8.of_string (token algorithm) ++ [58] ++ Utf8.decode buffer1)
  /\ cacheKey algorithm buffer1 = cacheKey algorithm buffer2
  /\ exists w1,
       getOrCompress options algorithm buffer1 clock1 w = (Normal (Some out), w1)
       /\ getOrCompress options algorithm buffer2 clock2 w1 = (Normal (Some out), w1).
Proof.
  intros Hdecode Hmiss Hout H12 Hmono Hwindow.
  assert (Hkey : cacheKey algorithm buffer1 = cacheKey algorithm buffer2)
    by (unfold cacheKey, keyText; rewrite Hdecode; reflexivity).
  split; [reflexivity|]. split; [exact Hkey|].
  eexists. split; [apply getOrCompress_miss; eassumption|].
  apply getOrCompress_hit; simpl; rewrite <- Hkey; apply visible_set; lia.
Qed.

(** A run of C9: the bytes FF and FE are different bodies, neither is
    UTF-8, both decode to U+FFFD; the second is answered with the
    compressed bytes of the first, which are not what its own compression
    gives. *)
Lemma C9_key_from_decoded_text_witness :
  ([0xFF] <> [0xFE] :> list Z)
  /\ Utf8.decode [0xFF] = [0xFFFD]
  /\ Utf8.decode [0xFE] = [0xFFFD]
  /\ compressors (Example.buffered 1 6) gzip [0xFE] = Normal [0x1F; 6; 0xFE]
  /\ (cacheKey gzip [0xFF]
      = MD5.md5_hex (Utf8.of_string (token gzip) ++ [58] ++ Utf8.decode [0xFF])
      /\ cacheKey gzip [0xFF] = cacheKey gzip [0xFE]
      /\ exists w1,
           getOrCompress (Example.buffered 1 6) gzip [0xFF]
             (Example.at_time 100) Example.fresh
           = (Normal (Some [0x1F; 6; 0xFF]), w1)
           /\ getOrCompress (Example.buffered 1 6) gzip [0xFE]
                (Example.at_time 200) w1
              = (Normal (Some [0x1F; 6; 0xFF]), w1)).
Proof.
  split; [discriminate|].
  split; [reflexivity|]. split; [reflexivity|].
  split; [vm_compute; reflexivity|].
  apply (C9_key_from_decoded_text (Example.buffered 1 6) gzip [0xFF] [0xFE]
           (Example.at_time 100) (Example.at_time 200) Example.fresh
           [0x1F; 6; 0xFF]).
  - reflexivity.
  - reflexivity.
  - vm_compute. reflexivity.
  - simpl. lia.
  - simpl. lia.
  - vm_compute. reflexivity.
Defined.

(** ** C10: one cache for every instance *)

(** C10. The cache store belongs to the module, not to the instance: when
    the middleware built from [options1] has compressed a body and stored
    the result (under its own TTL), the middleware built from [options2],
    whatever these are, takes the stored bytes for a response with the
    same body bytes and the same negotiated algorithm, inside that TTL
    window, and calls no compressor of its own: the body it hands to the
    constructor of [Response] is the stored one, and the response it
    returns, for every status that may carry a body, has that body. *)
Theorem C10_shared_cache `{NodeZlib} (options1 options2 : option Opt.t)
    (req1 req2 : Request) (next1 next2 : Response)
    (algorithm : CompressionEncoding) (clock1 clock2 : Clock) (w : World)
    (out : list Z) :
  let buffer := arrayBuffer (body next1) in
  arrayBuffer (body next2) = buffer ->
  buffered_path options1 req1 next1 algorithm ->
  buffered_path options2 req2 next2 algorithm ->
  Cache.visible (at_has clock1) (cacheStore w) (cacheKey algorithm buffer) = None ->
  compressors options1 algorithm buffer = Normal out ->
  at_next clock1 <= at_has clock2 ->
  at_has clock2 <= at_next clock2 ->
  at_next clock2 < at_next clock1 + cacheTTL options1 ->
  exists w1,
    compression options1 req1 next1 clock1 w
    = (newResponse algorithm (BodyBytes out) next1, w1)
    /\ zlibCalls w1 = zlibCalls w ++ [(algorithm, buffer)]
    /\ cacheStore w1 !! cacheKey algorithm buffer
       = Some (Cache.Entry out (at_next clock1) (cacheTTL options1))
    /\ getOrCompress options2 algorithm (arrayBuffer (body next2)) clock2 w1
       = (Normal (Some out), w1)
    /\ compression options2 req2 next2 clock2 w1
       = (newResponse algorithm (BodyBytes out) next2, w1)
    /\ (nullBodyStatus (status next2) = false ->
        compression options2 req2 next2 clock2 w1
        = (Normal (rewritten algorithm (BodyBytes out) next2), w1)).
Proof.
  intros buffer Hbody Hpath1 Hpath2 Hmiss Hout H12 Hmono Hwindow. subst buffer.
  set (w1 := {| cacheStore :=
                  Cache.set (at_next clock1) (cacheStore w)
                    (cacheKey algorithm (arrayBuffer (body next1))) out
                    (cacheTTL options1);
                zlibCalls :=
                  zlibCalls w ++ [(algorithm, arrayBuffer (body next1))] |}).
  assert (Hhit : getOrCompress options2 algorithm (arrayBuffer (body next2))
                   clock2 w1
                 = (Normal (Some out), w1)).
  { rewrite Hbody.
    apply getOrCompress_hit; simpl; apply visible_set; lia. }
  assert (Hrun : compression options2 req2 next2 clock2 w1
                 = (newResponse algorithm (BodyBytes out) next2, w1)).
  { rewrite (compression_buffered _ _ _ _ _ _ Hpath2), Hhit. reflexivity. }
  exists w1. split.
  { rewrite (compression_buffered _ _ _ _ _ _ Hpath1).
    rewrite (getOrCompress_miss _ _ _ _ _ _ Hmiss Hout). reflexivity. }
  split; [reflexivity|]. split; [apply lookup_insert_eq|].
  split; [exact Hhit|]. split; [exact Hrun|].
  intros Hstatus. rewrite Hrun.
  destruct Hpath2 as (_ & Hok & _).
  rewrite (newResponse_ok _ _ _ Hok), Hstatus. reflexivity.
Qed.

(** A run of C10: an instance with zlib level 9 and a TTL of 60 stores
    its gzip of "hello"; an instance with level 1, another threshold and
    the default TTL then answers with the level 9 bytes, not with its own
    level 1 bytes (the status is 200, so both responses are built). *)
Lemma C10_shared_cache_witness :
  let options1 : option Opt.t :=
    Some {| Opt.brotliOptions := None;
            Opt.zlibOptions := Some {[ "level" := 9 ]};
            Opt.encodings := Some [gzip];
            Opt.disableByHeader := None;
            Opt.threshold := Some 0;
            Opt.compressStream := Some false;
            Opt.as_ := None;
            Opt.TTL := Some 60 |} in
  let options2 := Example.buffered 1 1 in
  let next := Example.response (Some "text/plain") None (BodyBytes Example.hello) in
  compressors options2 gzip Example.hello = Normal (0x1F :: 1 :: Example.hello)
  /\ exists w1,
       compression options1 (Example.request "gzip") next
         (Example.at_time 100) Example.fresh
       = (Normal (rewritten gzip (BodyBytes (0x1F :: 9 :: Example.hello)) next), w1)
       /\ zlibCalls w1 = [(gzip, Example.hello)]
       /\ cacheStore w1 !! cacheKey gzip Example.hello
          = Some (Cache.Entry (0x1F :: 9 :: Example.hello) 100 60)
       /\ getOrCompress options2 gzip Example.hello (Example.at_time 159) w1
          = (Normal (Some (0x1F :: 9 :: Example.hello)), w1)
       /\ compression options2 (Example.request "deflate, gzip") next
            (Example.at_time 159) w1
          = (Normal (rewritten gzip (BodyBytes (0x1F :: 9 :: Example.hello)) next), w1)
       /\ (nullBodyStatus 200 = false ->
           compression options2 (Example.request "deflate, gzip") next
             (Example.at_time 159) w1
           = (Normal (rewritten gzip (BodyBytes (0x1F :: 9 :: Example.hello)) next),
              w1)).
Proof.
  intros options1 options2 next.
  split; [vm_compute; reflexivity|].
  apply (C10_shared_cache options1 options2 (Example.request "gzip")
           (Example.request "deflate, gzip") next next gzip
           (Example.at_time 100) (Example.at_time 159) Example.fresh
           (0x1F :: 9 :: Example.hello)).
  - reflexivity.
  - repeat split; try (vm_compute; reflexivity).
    + vm_compute. discriminate.
    + right. vm_compute. reflexivity.
  - repeat split; try (vm_compute; reflexivity).
    + vm_compute. discriminate.
    + right. vm_compute. reflexivity.
  - reflexivity.
  - vm_compute. reflexivity.
  - vm_compute. discriminate.
  - vm_compute. discriminate.
  - vm_compute. reflexivity.
Defined.

(** ** C3: the threshold gate *)




(** ** C6: the tokens of [Accept-Encoding] *)

(** C6, what the code does.  [Accept-Encoding: gzip,deflate]
    lists two encodings separated by a comma with no space after it; the
    header is split on comma-space, so the only token is the whole value,
    nothing is negotiated and the response comes back uncompressed.  With
    a space after the comma both tokens are found.  A value of [*] alone
    negotiates nothing either. *)
Theorem C6_accept_encoding_split :
  acceptEncodings (Example.request "gzip,deflate") = ["gzip,deflate"]
  /\ negotiated None (Example.request "gzip,deflate") = []
  /\ (forall (zlib : NodeZlib) next clock w,
        @compression zlib None (Example.request "gzip,deflate") next clock w
        = (Normal next, w))
  /\ acceptEncodings (Example.request "gzip, deflate") = ["gzip"; "deflate"]
  /\ negotiated None (Example.request "gzip, deflate") = [gzip; deflate]
  /\ negotiated None (Example.request "gzip;q=0.5, deflate;q=1.0") = []
  /\ negotiated None (Example.request "*") = []
  /\ (forall (zlib : NodeZlib) next clock w,
        @compression zlib None (Example.request "*") next clock w
        = (Normal next, w)).
Proof.
  split; [reflexivity|]. split; [reflexivity|].
  split.
  { intros zlib next clock w. unfold compression.
    destruct (disableByHeader None && _); [reflexivity|].
    destruct (negb (ok next)); reflexivity. }
  split; [reflexivity|]. split; [reflexivity|]. split; [reflexivity|].
  split; [reflexivity|].
  intros zlib next clock w. unfold compression.
  destruct (disableByHeader None && _); [reflexivity|].
  destruct (negb (ok next)); reflexivity.
Qed.

(** ** C7: the default of [compressStream] *)

(** C7, what the code does.  With the options left out, or
    given without [compressStream], the flag the middleware uses is true,
    and a stream response is sent through [CompressionStream]. *)
Theorem C7_compressStream_default :
  compressStream None = true
  /\ compressStream (Some Opt.empty) = true
  /\ forall (zlib : NodeZlib) (clock : Clock) (w : World),
       let next := Example.response (Some "text/event-stream") None
                     (BodyStream [Example.hello]) in
       @compression zlib (Some Opt.empty) (Example.request "gzip") next clock w
       = (Normal (rewritten gzip
                    (BodyStream (CompressionStream gzip (Some Opt.empty)
                                   [Example.hello])) next), w).
Proof.
  split; [reflexivity|]. split; [reflexivity|]. intros zlib clock w. reflexivity.
Qed.

(** ** C4: the content-type gate *)

Lemma semicolon_or_end_spec (s : string) :
  Regex.semicolon_or_end s = true <->
  s = EmptyString \/ exists rest, s = ";" +:+ rest.
Proof.
  unfold Regex.semicolon_or_end.
  rewrite orb_true_iff, String.eqb_eq, startsWith_spec. reflexivity.
Qed.

Lemma text_type_spec (s : string) :
  Regex.text_type s = true <->
  exists rest, s = "text/" +:+ rest /\ JS.startsWith "event-stream" rest = false.
Proof.
  unfold Regex.text_type. rewrite andb_true_iff, negb_true_iff, startsWith_spec.
  split.
  - intros [[rest ->] Hrest]. exists rest. split; [reflexivity | exact Hrest].
  - intros (rest & -> & Hrest). split; [eauto | exact Hrest].
Qed.

Lemma literal_then_end (lit s : string) :
  JS.startsWith lit s && Regex.semicolon_or_end (JS.drop (String.length lit) s) = true
  <-> exists post, s = lit +:+ post
                   /\ (post = EmptyString \/ exists rest, post = ";" +:+ rest).
Proof.
  rewrite andb_true_iff, startsWith_spec. split.
  - intros [[post ->] Hend]. rewrite drop_app in Hend.
    exists post. split; [reflexivity | apply semicolon_or_end_spec, Hend].
  - intros (post & -> & Hend). split; [eauto|].
    rewrite drop_app. apply semicolon_or_end_spec, Hend.
Qed.

Lemma suffix_at_spec (w s : string) :
  Regex.suffix_at w s = true <->
  exists sep post,
    (sep = "+" \/ sep = "/")
    /\ s = sep +:+ w +:+ post
    /\ (post = EmptyString \/ exists rest, post = ";" +:+ rest).
Proof.
  unfold Regex.suffix_at.
  rewrite andb_orb_distrib_l, orb_true_iff.
  change (1 + String.length w)%nat with (String.length ("+" +:+ w)) at 1.
  change (1 + String.length w)%nat with (String.length ("/" +:+ w)).
  rewrite !literal_then_end. split.
  - intros [(post & -> & Hend)|(post & -> & Hend)].
    + exists "+", post. auto.
    + exists "/", post. auto.
  - intros (sep & post & [-> | ->] & -> & Hend); [left|right]; eauto.
Qed.

Lemma octet_stream_at_spec (s : string) :
  Regex.octet_stream_at s = true <->
  exists post, s = "octet-stream" +:+ post
               /\ (post = EmptyString \/ exists rest, post = ";" +:+ rest).
Proof. apply (literal_then_end "octet-stream"). Qed.

Lemma classifier_spec (contentType : string) :
  Regex.test contentType = true <-> matches_classifier contentType.
Proof.
  unfold Regex.test, matches_classifier.
  rewrite orb_true_iff, text_type_spec, search_spec.
  apply or_iff_compat_l. unfold Regex.floating_at. split.
  - intros (pre & suf & -> & Hat).
    rewrite !orb_true_iff, !suffix_at_spec, octet_stream_at_spec in Hat.
    destruct Hat as [[[Hat|Hat]|Hat]|Hat].
    + destruct Hat as (sep & post & Hsep & -> & Hend).
      left. exists pre, sep, "json", post. auto.
    + destruct Hat as (sep & post & Hsep & -> & Hend).
      left. exists pre, sep, "text", post. auto 6.
    + destruct Hat as (sep & post & Hsep & -> & Hend).
      left. exists pre, sep, "xml", post. auto 6.
    + destruct Hat as (post & -> & Hend). right. eauto.
  - intros [(pre & sep & word & post & -> & Hsep & Hword & Hend)
           |(pre & post & -> & Hend)].
    + exists pre, (sep +:+ word +:+ post). split; [reflexivity|].
      rewrite !orb_true_iff, !suffix_at_spec.
      destruct Hword as [-> | [-> | ->]];
        [left; left; left | left; left; right | left; right]; eauto.
    + exists pre, ("octet-stream" +:+ post). split; [reflexivity|].
      rewrite !orb_true_iff, octet_stream_at_spec. right. eauto.
Qed.

(** C4, as the code has it.  On the buffered path a response whose
    [Content-Type] is present, not empty and not matched by the classifier
    comes back as it was; an absent or empty [Content-Type] passes the
    gate: the body goes to [getOrCompress], and what it gives goes into
    the constructor of [Response], which refuses it for a null body
    status (204, 205) and builds the rewritten response for every other
    one; and the classifier matches
    exactly the values [matches_classifier] describes: [octet-stream], like
    the [json], [text] and [xml] suffixes, counts only when a semicolon or
    the end of the value follows it. *)
Theorem C4_content_type_gate `{NodeZlib} (options : option Opt.t) (req : Request)
    (next : Response) (clock : Clock) (w : World) :
  (forall contentType,
      compressStream options && isReadableStream (body next) = false ->
      Headers.get (headers next) "Content-Type" = Some contentType ->
      contentType <> EmptyString ->
      ~ matches_classifier contentType ->
      compression options req next clock w = (Normal next, w))
  /\ (forall encoding,
        disableByHeader options
          && JS.truthy (Headers.get (req_headers req) "x-no-compression") = false ->
        ok next = true ->
        head (negotiated options req) = Some encoding ->
        compressStream options && isReadableStream (body next) = false ->
        threshold options <= Z.of_nat (List.length (arrayBuffer (body next))) ->
        Headers.get (headers next) "Content-Type" = None
        \/ Headers.get (headers next) "Content-Type" = Some EmptyString ->
        compression options req next clock w
        = match getOrCompress options encoding (arrayBuffer (body next)) clock w with
          | (Throw error, w') => (Throw error, w')
          | (Normal compressed, w') =>
              (if nullBodyStatus (status next)
               then Throw "TypeError"
               else Normal (rewritten encoding (BodyBytes (compressed ?? []))
                              next),
               w')
          end)
  /\ (forall contentType,
        defaultCompressibleTypes contentType = true
        <-> matches_classifier contentType).
Proof.
  split; [|split].
  - intros contentType Hstream Htype Hnonempty Hno.
    unfold compression. rewrite Hstream, Htype; simpl.
    destruct (disableByHeader options && _); [reflexivity|].
    destruct (negb (ok next)); [reflexivity|].
    destruct (negotiated options req); [reflexivity|].
    destruct (_ <? threshold options); [reflexivity|].
    destruct (String.eqb_spec contentType EmptyString) as [|_]; [contradiction|].
    unfold defaultCompressibleTypes.
    destruct (Regex.test contentType) eqn:Htest; [|reflexivity].
    apply classifier_spec in Htest. contradiction.
  - intros encoding Hopt Hok Hneg Hstream Hsize Htype.
    rewrite (compression_buffered options req next encoding).
    + destruct (getOrCompress options encoding _ clock w) as [[compressed|error] w1];
        [|reflexivity].
      rewrite (newResponse_ok _ _ _ Hok). reflexivity.
    + repeat split; try assumption.
      left. destruct Htype as [-> | ->]; reflexivity.
  - intros contentType. apply classifier_spec.
Qed.

(** Runs of C4: an [image/png] response comes back as it was; a response
    without [Content-Type] is compressed; [application/json;charset=utf-8]
    and [image/svg+xml] match the classifier, [image/png] and
    [text/event-stream] do not. *)
Lemma C4_content_type_gate_witness :
  let png := Example.response (Some "image/png") None (BodyBytes Example.hello) in
  let bare := Example.response None None (BodyBytes Example.hello) in
  compression (Example.buffered 1 6) (Example.request "gzip") png
    (Example.at_time 100) Example.fresh
  = (Normal png, Example.fresh)
  /\ compression (Example.buffered 1 6) (Example.request "gzip") bare
       (Example.at_time 100) Example.fresh
     = match getOrCompress (Example.buffered 1 6) gzip Example.hello
               (Example.at_time 100) Example.fresh with
       | (Throw error, w') => (Throw error, w')
       | (Normal compressed, w') =>
           (Normal (rewritten gzip (BodyBytes (compressed ?? [])) bare), w')
       end
  /\ (exists w',
        compression (Example.buffered 0 6) (Example.request "gzip")
          Example.noContent (Example.at_time 100) Example.fresh
        = (Throw "TypeError", w')
        /\ zlibCalls w' = [(gzip, [])])
  /\ matches_classifier "application/json;charset=utf-8"
  /\ matches_classifier "image/svg+xml"
  /\ defaultCompressibleTypes "image/png" = false
  /\ defaultCompressibleTypes "text/event-stream" = false.
Proof.
  intros png bare.
  split.
  { apply (proj1 (C4_content_type_gate (Example.buffered 1 6)
                    (Example.request "gzip") png (Example.at_time 100)
                    Example.fresh) "image/png").
    - reflexivity.
    - reflexivity.
    - discriminate.
    - intros Hm.
      apply (proj2 (proj2 (C4_content_type_gate (Example.buffered 1 6)
                             (Example.request "gzip") png (Example.at_time 100)
                             Example.fresh)) "image/png") in Hm.
      vm_compute in Hm. discriminate. }
  split.
  { refine (proj1 (proj2 (C4_content_type_gate (Example.buffered 1 6)
                            (Example.request "gzip") bare (Example.at_time 100)
                            Example.fresh)) gzip
              eq_refl eq_refl eq_refl eq_refl _ (or_introl eq_refl)).
    vm_compute. discriminate. }
  split.
  { exists {| cacheStore :=
                Cache.set 100 ∅ (cacheKey gzip []) [0x1F; 6] 86400;
              zlibCalls := [(gzip, [])] |}.
    split; [|reflexivity].
    pose proof (proj1 (proj2 (C4_content_type_gate (Example.buffered 0 6)
                                (Example.request "gzip") Example.noContent
                                (Example.at_time 100) Example.fresh)) gzip
                  eq_refl eq_refl eq_refl eq_refl) as Hrun.
    rewrite Hrun; [vm_compute; reflexivity | vm_compute; discriminate
                   | left; reflexivity]. }
  split.
  { apply (proj2 (proj2 (C4_content_type_gate (Example.buffered 1 6)
                           (Example.request "gzip") png (Example.at_time 100)
                           Example.fresh)) "application/json;charset=utf-8").
    vm_compute. reflexivity. }
  split.
  { apply (proj2 (proj2 (C4_content_type_gate (Example.buffered 1 6)
                           (Example.request "gzip") png (Example.at_time 100)
                           Example.fresh)) "image/svg+xml").
    vm_compute. reflexivity. }
  split; vm_compute; reflexivity.
Defined.

(** C4 as stated fails on [octet-stream] inside a longer name.  The value
    [application/octet-stream-compressed] contains [octet-stream], so the
    classifier as the specification words it accepts it; the regular
    expression wants a semicolon or the end of the value after
    [octet-stream], does not match, and the response comes back
    uncompressed. *)
Lemma C4_octet_stream_inside_a_name :
  let contentType := "application/octet-stream-compressed" in
  let next := Example.response (Some contentType) None (BodyBytes Example.hello) in
  Spec.contains "octet-stream" contentType = true
  /\ Spec.compressible contentType = true
  /\ defaultCompressibleTypes contentType = false
  /\ (forall (zlib : NodeZlib) (clock : Clock) (w : World),
        @compression zlib (Example.buffered 1 6) (Example.request "gzip") next
          clock w
        = (Normal next, w))
  /\ defaultCompressibleTypes "application/octet-stream" = true.
Proof.
  intros contentType next.
  split; [vm_compute; reflexivity|]. split; [vm_compute; reflexivity|].
  split; [vm_compute; reflexivity|].
  split; [|vm_compute; reflexivity].
  intros zlib clock w. reflexivity.
Qed.

(** ** C5: merging [Vary] *)

Lemma indexOf_absent (l : list string) (x : string) :
  x ∉ l -> JS.indexOf l x = -1.
Proof.
  induction l as [|y l IH]; simpl; intros Hx; [reflexivity|].
  apply not_elem_of_cons in Hx as [Hxy Hl].
  destruct (String.eqb_spec y x) as [->|_]; [contradiction|].
  rewrite (IH Hl). reflexivity.
Qed.

Lemma indexOf_present (l : list string) (x : string) :
  x ∈ l -> 0 <= JS.indexOf l x < Z.of_nat (List.length l).
Proof.
  induction l as [|y l IH]; simpl; intros Hx; [inversion Hx|].
  destruct (String.eqb_spec y x) as [->|Hyx]; [lia|].
  apply elem_of_cons in Hx as [->|Hx]; [contradiction|].
  specialize (IH Hx).
  destruct (Z.ltb_spec (JS.indexOf l x) 0); lia.
Qed.

(** [indexOf] stops at the first occurrence. *)
Lemma indexOf_app_present (pre post : list string) (x : string) :
  x ∈ pre -> JS.indexOf (pre ++ post) x = JS.indexOf pre x.
Proof.
  induction pre as [|y pre IH]; simpl; intros Hx; [inversion Hx|].
  destruct (String.eqb_spec y x) as [->|Hyx]; [reflexivity|].
  apply elem_of_cons in Hx as [->|Hx]; [contradiction|].
  rewrite (IH Hx). reflexivity.
Qed.

Lemma indexOf_app_first (pre post : list string) (x : string) :
  x ∉ pre -> JS.indexOf (pre ++ x :: post) x = Z.of_nat (List.length pre).
Proof.
  induction pre as [|y pre IH]; simpl; intros Hx.
  - rewrite String.eqb_refl. reflexivity.
  - apply not_elem_of_cons in Hx as [Hxy Hpre].
    destruct (String.eqb_spec y x) as [->|_]; [contradiction|].
    rewrite (IH Hpre).
    destruct (Z.ltb_spec (Z.of_nat (List.length pre)) 0); lia.
Qed.

(** The callback of the [filter] in line 185 keeps the element at an
    index exactly when it did not occur before that index. *)
Lemma first_occurrence_test (pre post : list string) (x : string) :
  (JS.indexOf (pre ++ x :: post) x =? Z.of_nat (List.length pre))
  = negb (JS.includes pre x).
Proof.
  destruct (JS.includes pre x) eqn:Hin; simpl.
  - apply includes_spec in Hin. apply Z.eqb_neq.
    rewrite (indexOf_app_present _ _ _ Hin).
    pose proof (indexOf_present _ _ Hin). lia.
  - apply includes_false in Hin. apply Z.eqb_eq, indexOf_app_first, Hin.
Qed.

Lemma filter_from_app {A} (f : A -> Z -> bool) (i : Z) (l1 l2 : list A) :
  JS.filter_from f i (l1 ++ l2)
  = JS.filter_from f i l1 ++ JS.filter_from f (i + Z.of_nat (List.length l1)) l2.
Proof.
  revert i. induction l1 as [|x l1 IH]; intros i; simpl.
  - rewrite Z.add_0_r. reflexivity.
  - rewrite IH. replace (i + 1 + Z.of_nat (List.length l1))
      with (i + Z.pos (Pos.of_succ_nat (List.length l1))) by lia.
    destruct (f x i); reflexivity.
Qed.

(** The elements [filter] keeps of [rest], the part of [whole] that
    starts at the index [length pre]: those that are not in [pre], once
    each, in the order of [rest]; all of them when [whole] has no
    repetition. *)
Lemma first_occurrences (whole pre rest post : list string) :
  whole = pre ++ rest ++ post ->
  let kept :=
    JS.filter_from (fun value index => JS.indexOf whole value =? index)
      (Z.of_nat (List.length pre)) rest in
  (forall t, t ∈ kept <-> t ∈ rest /\ t ∉ pre)
  /\ NoDup kept
  /\ sublist kept rest
  /\ (NoDup (pre ++ rest) -> kept = rest).
Proof.
  revert pre. induction rest as [|x rest IH]; intros pre Hwhole; simpl.
  - split; [|split; [constructor|split; [constructor|reflexivity]]].
    intros t. split; [intros Ht; inversion Ht | intros [Ht _]; inversion Ht].
  - assert (Hwhole' : whole = (pre ++ [x]) ++ rest ++ post)
      by (rewrite <- app_assoc; exact Hwhole).
    destruct (IH _ Hwhole') as (Hmem & Hnodup & Hsub & Hall).
    rewrite length_app in Hmem, Hnodup, Hsub, Hall. simpl in *.
    replace (Z.of_nat (List.length pre + 1)) with (Z.of_nat (List.length pre) + 1)
      in Hmem, Hnodup, Hsub, Hall by lia.
    assert (Htest : (JS.indexOf whole x =? Z.of_nat (List.length pre))
                    = negb (JS.includes pre x))
      by (rewrite Hwhole; apply first_occurrence_test).
    rewrite Htest. clear Htest.
    destruct (JS.includes pre x) eqn:Hin; simpl.
    + apply includes_spec in Hin.
      split; [|split; [exact Hnodup|split; [constructor; exact Hsub|]]].
      * intros t. rewrite Hmem, elem_of_cons, not_elem_of_app, not_elem_of_cons.
        split; [tauto|]. intros [[->|Ht] Hpre]; [contradiction|].
        split; [exact Ht|]. split; [exact Hpre|].
        split; [|apply not_elem_of_nil]. intros ->. contradiction.
      * intros Hnd. exfalso.
        apply NoDup_app in Hnd as (_ & Hdisj & _).
        apply (Hdisj x Hin). left.
    + apply includes_false in Hin.
      split; [|split; [|split; [constructor; exact Hsub|]]].
      * intros t. rewrite !elem_of_cons, Hmem, not_elem_of_app, not_elem_of_cons.
        split.
        -- intros [->|(Ht & Hpre & Hx & _)]; [auto | tauto].
        -- intros [[->|Ht] Hpre]; [left; reflexivity|].
           destruct (decide (t = x)) as [->|Hne]; [left; reflexivity|].
           right. split; [exact Ht|]. split; [exact Hpre|].
           split; [exact Hne | apply not_elem_of_nil].
      * constructor; [|exact Hnodup].
        rewrite Hmem, not_elem_of_app, not_elem_of_cons. tauto.
      * intros Hnd. rewrite Hall; [reflexivity|].
        rewrite <- app_assoc. exact Hnd.
Qed.

(** The occurrence [filter] keeps of a token is its first one: where a
    token stands in the list with no occurrence before it, it is kept, and
    the tokens kept before it are those that stand before it. *)
Lemma first_is_kept (whole pre post tail : list string) (t : string) :
  whole = (pre ++ t :: post) ++ tail ->
  t ∉ pre ->
  exists before after,
    JS.filter_from (fun value index => JS.indexOf whole value =? index) 0
      (pre ++ t :: post)
    = before ++ t :: after
    /\ (forall u, u ∈ before <-> u ∈ pre)
    /\ (forall u, u ∈ after -> u ∈ post).
Proof.
  intros Hwhole Ht.
  assert (Hwhole1 : whole = [] ++ pre ++ t :: post ++ tail)
    by (rewrite Hwhole, <- app_assoc; reflexivity).
  assert (Hwhole2 : whole = (pre ++ [t]) ++ post ++ tail)
    by (rewrite Hwhole, <- !app_assoc; reflexivity).
  destruct (first_occurrences whole [] pre (t :: post ++ tail) Hwhole1)
    as (Hbefore & _).
  destruct (first_occurrences whole (pre ++ [t]) post tail Hwhole2)
    as (Hafter & _).
  rewrite filter_from_app.
  change (JS.filter_from (fun value index => JS.indexOf whole value =? index)
            (0 + Z.of_nat (List.length pre)) (t :: post))
    with (if JS.indexOf whole t =? 0 + Z.of_nat (List.length pre)
          then t :: JS.filter_from
                      (fun value index => JS.indexOf whole value =? index)
                      (0 + Z.of_nat (List.length pre) + 1) post
          else JS.filter_from
                 (fun value index => JS.indexOf whole value =? index)
                 (0 + Z.of_nat (List.length pre) + 1) post).
  assert (Htest : (JS.indexOf whole t =? 0 + Z.of_nat (List.length pre)) = true).
  { rewrite Z.add_0_l, Hwhole1. simpl app. rewrite first_occurrence_test.
    apply negb_true_iff, includes_false, Ht. }
  rewrite Htest. eexists _, _. split; [reflexivity|]. split.
  - intros u. simpl in Hbefore. rewrite (Hbefore u). split; [tauto|].
    intros Hu. split; [exact Hu | apply not_elem_of_nil].
  - intros u Hu. rewrite length_app in Hafter. simpl in Hafter.
    replace (Z.of_nat (List.length pre + 1))
      with (0 + Z.of_nat (List.length pre) + 1) in Hafter by lia.
    apply Hafter in Hu. tauto.
Qed.

(** The array that is joined into the new [Vary] value: the tokens
    without their repetitions, each at its first occurrence, then
    [accept-encoding] unless it is one of them. *)
Lemma merged_tokens (tokens : list string) :
  exists kept,
    JS.filter_indexed (fun value index array => JS.indexOf array value =? index)
      (tokens ++ ["accept-encoding"])
    = kept ++ (if JS.includes tokens "accept-encoding" then []
               else ["accept-encoding"])
    /\ NoDup kept
    /\ sublist kept tokens
    /\ (forall t, t ∈ kept <-> t ∈ tokens)
    /\ (NoDup tokens -> kept = tokens)
    /\ (forall pre t post,
          tokens = pre ++ t :: post -> t ∉ pre ->
          exists before after,
            kept = before ++ t :: after
            /\ (forall u, u ∈ before <-> u ∈ pre)
            /\ (forall u, u ∈ after -> u ∈ post)).
Proof.
  unfold JS.filter_indexed. rewrite filter_from_app.
  destruct (first_occurrences (tokens ++ ["accept-encoding"]) [] tokens
              ["accept-encoding"] eq_refl) as (Hmem & Hnodup & Hsub & Hall).
  simpl in Hmem, Hnodup, Hsub, Hall.
  eexists. split; [f_equal|].
  - simpl. rewrite first_occurrence_test.
    destruct (JS.includes tokens "accept-encoding"); reflexivity.
  - split; [exact Hnodup|]. split; [exact Hsub|]. split; [|split].
    + intros t. rewrite Hmem. split; [tauto|]. intros Ht.
      split; [exact Ht | apply not_elem_of_nil].
    + exact Hall.
    + intros pre t post Htokens Ht.
      rewrite Htokens.
      exact (first_is_kept _ pre post ["accept-encoding"] t eq_refl Ht).
Qed.

(** C5, as the code has it.  Whenever the middleware returns a rewritten
    response: with no [Vary] value (or an empty one) [Vary] becomes
    [accept-encoding]; a value with the token [*] is left as it is;
    otherwise the comma-separated tokens are trimmed and put in lower
    case, repeated tokens are dropped, [accept-encoding] is added at the
    end unless it is already a token, and the tokens are joined with
    comma-space.  Of a repeated token the first occurrence is the one
    that stays: wherever a token stands in the list with no occurrence
    before it, it is kept, the tokens kept before it are the tokens that
    stand before it, and those kept after it stand after it.  The case of
    the existing tokens is not preserved. *)
Theorem C5_vary_merge `{NodeZlib} (options : option Opt.t) (req : Request)
    (next : Response) (clock : Clock) (w : World) (r' : Response) (w' : World) :
  compression options req next clock w = (Normal r', w') ->
  r' <> next ->
  let vary := Headers.get (headers next) "Vary" in
  let tokens :=
    map (fun v => JS.toLowerCase (JS.trim v)) (JS.split "," (vary ?? EmptyString)) in
  (vary = None \/ vary = Some EmptyString ->
   Headers.get (headers r') "Vary" = Some "accept-encoding")
  /\ (vary <> None -> vary <> Some EmptyString -> "*" ∈ tokens ->
      Headers.get (headers r') "Vary" = vary)
  /\ (vary <> None -> vary <> Some EmptyString -> "*" ∉ tokens ->
      exists kept,
        Headers.get (headers r') "Vary"
        = Some (Headers.normalize
                  (JS.join ", "
                     (kept ++ (if JS.includes tokens "accept-encoding" then []
                               else ["accept-encoding"]))))
        /\ NoDup kept
        /\ sublist kept tokens
        /\ (forall t, t ∈ kept <-> t ∈ tokens)
        /\ (NoDup tokens -> kept = tokens)
        /\ (forall pre t post,
              tokens = pre ++ t :: post -> t ∉ pre ->
              exists before after,
                kept = before ++ t :: after
                /\ (forall u, u ∈ before <-> u ∈ pre)
                /\ (forall u, u ∈ after -> u ∈ post))).
Proof.
  intros Hrun Hrewritten vary tokens.
  destruct (compression_returns _ _ _ _ _ _ _ Hrun)
    as [[-> _]|(e & rest & compressed & _ & ->)]; [contradiction|].
  rewrite rewritten_vary. unfold withVary. fold vary.
  change (varyTokens (vary ?? EmptyString)) with tokens.
  split; [|split].
  - intros [-> | ->]; simpl; unfold Headers.get, Headers.set;
      rewrite lookup_insert_eq; reflexivity.
  - intros Hsome Hnonempty Hstar.
    destruct vary as [v|] eqn:Hv; [|contradiction]. simpl.
    destruct (String.eqb_spec v EmptyString) as [->|_]; [contradiction|]. simpl.
    apply includes_spec in Hstar. rewrite Hstar. exact Hv.
  - intros Hsome Hnonempty Hstar.
    destruct vary as [v|] eqn:Hv; [|contradiction]. simpl.
    destruct (String.eqb_spec v EmptyString) as [->|_]; [contradiction|]. simpl.
    apply includes_false in Hstar. rewrite Hstar. simpl.
    destruct (merged_tokens tokens) as (kept & Hkept & Hprops).
    exists kept. split; [|exact Hprops].
    unfold Headers.get, Headers.set, mergedVary.
    rewrite lookup_insert_eq, Hkept. reflexivity.
Qed.

(** Runs of C5: [Vary: location, header] becomes
    [location, header, accept-encoding]; in [Vary: a, b, a] the second
    [a] is the one dropped, which gives [a, b, accept-encoding]. *)
Lemma C5_vary_merge_witness :
  let next := Example.response (Some "text/plain") (Some "location, header")
                (BodyBytes Example.hello) in
  let r' := rewritten gzip (BodyBytes (0x1F :: 6 :: Example.hello)) next in
  let vary := Headers.get (headers next) "Vary" in
  let tokens :=
    map (fun v => JS.toLowerCase (JS.trim v)) (JS.split "," (vary ?? EmptyString)) in
  vary = Some "location, header"
  /\ tokens = ["location"; "header"]
  /\ Headers.get (headers r') "Vary" = Some "location, header, accept-encoding"
  /\ Headers.get
       (headers
          (rewritten gzip (BodyBytes (0x1F :: 6 :: Example.hello))
             (Example.response (Some "text/plain") (Some "a, b, a")
                (BodyBytes Example.hello)))) "Vary"
     = Some "a, b, accept-encoding"
  /\ (vary = None \/ vary = Some EmptyString ->
      Headers.get (headers r') "Vary" = Some "accept-encoding")
  /\ (vary <> None -> vary <> Some EmptyString -> "*" ∈ tokens ->
      Headers.get (headers r') "Vary" = vary)
  /\ (vary <> None -> vary <> Some EmptyString -> "*" ∉ tokens ->
      exists kept,
        Headers.get (headers r') "Vary"
        = Some (Headers.normalize
                  (JS.join ", "
                     (kept ++ (if JS.includes tokens "accept-encoding" then []
                               else ["accept-encoding"]))))
        /\ NoDup kept
        /\ sublist kept tokens
        /\ (forall t, t ∈ kept <-> t ∈ tokens)
        /\ (NoDup tokens -> kept = tokens)
        /\ (forall pre t post,
              tokens = pre ++ t :: post -> t ∉ pre ->
              exists before after,
                kept = before ++ t :: after
                /\ (forall u, u ∈ before <-> u ∈ pre)
                /\ (forall u, u ∈ after -> u ∈ post))).
Proof.
  intros next r' vary tokens.
  split; [reflexivity|]. split; [reflexivity|].
  split; [vm_compute; reflexivity|].
  split; [vm_compute; reflexivity|].
  apply (C5_vary_merge (Example.buffered 1 6) (Example.request "gzip") next
           (Example.at_time 100) Example.fresh r'
           {| cacheStore :=
                Cache.set 100 ∅ (cacheKey gzip Example.hello)
                  (0x1F :: 6 :: Example.hello) 86400;
              zlibCalls := [(gzip, Example.hello)] |}).
  - vm_compute. reflexivity.
  - intros Heq.
    apply (f_equal (fun r => Headers.get (headers r) "Content-Encoding")) in Heq.
    vm_compute in Heq. discriminate.
Defined.

(** C5 as stated fails on capitals, and on repeated tokens.  The claim
    keeps the case of the existing tokens, so [Vary: Origin, Accept] would
    become [Origin, Accept, accept-encoding]; the code puts every token in
    lower case.  It also drops a token that occurs twice. *)
Lemma C5_case_is_not_preserved :
  let next := Example.response (Some "text/plain") (Some "Origin, Accept")
                (BodyBytes Example.hello) in
  let twice := Example.response (Some "text/plain") (Some "origin, origin")
                 (BodyBytes Example.hello) in
  (exists r' w',
     compression (Example.buffered 1 6) (Example.request "gzip") next
       (Example.at_time 100) Example.fresh = (Normal r', w')
     /\ Headers.get (headers r') "Content-Encoding" = Some "gzip"
     /\ Headers.get (headers r') "Vary" = Some "origin, accept, accept-encoding"
     /\ Headers.get (headers r') "Vary" <> Some "Origin, Accept, accept-encoding")
  /\ (exists r' w',
        compression (Example.buffered 1 6) (Example.request "gzip") twice
          (Example.at_time 100) Example.fresh = (Normal r', w')
        /\ Headers.get (headers r') "Vary" = Some "origin, accept-encoding").
Proof.
  intros next twice. split.
  - eexists _, _. split; [vm_compute; reflexivity|].
    split; [vm_compute; reflexivity|]. split; [vm_compute; reflexivity|].
    vm_compute. discriminate.
  - eexists _, _. split; [vm_compute; reflexivity|]. vm_compute. reflexivity.
Qed.

(* ===================================================================== *)
(** * Part III: further properties of the middleware                      *)
(* ===================================================================== *)

(** ** The opt-out header and the status gate *)

(** X1. With [disableByHeader] in force (it is, unless the options say
    false) a request that carries a non-empty [x-no-compression] header
    gets the response of [next()] itself, whatever its body, type and
    status, and the shared state is not touched. *)
Theorem X1_opt_out_header `{NodeZlib} (options : option Opt.t) (req : Request)
    (next : Response) (clock : Clock) (w : World) (v : string) :
  Opt.prop Opt.disableByHeader options <> Some false ->
  Headers.get (req_headers req) "x-no-compression" = Some v ->
  v <> EmptyString ->
  compression options req next clock w = (Normal next, w).
Proof.
  intros Hflag Hheader Hv. unfold compression, disableByHeader.
  rewrite Hheader. simpl.
  destruct (String.eqb_spec v EmptyString) as [->|_]; [contradiction|].
  destruct (Opt.prop Opt.disableByHeader options) as [[|]|]; simpl;
    [reflexivity | contradiction | reflexivity].
Qed.

(** A run of X1: the options left out, [x-no-compression: true], and a
    body that would otherwise be compressed as a stream. *)
Lemma X1_opt_out_header_witness :
  compression None
    {| req_headers := <["x-no-compression" := "true"]>
                        {[ "accept-encoding" := "gzip" ]} |}
    (Example.response (Some "text/plain") None (BodyStream [Example.hello]))
    (Example.at_time 100) Example.fresh
  = (Normal (Example.response (Some "text/plain") None (BodyStream [Example.hello])),
     Example.fresh).
Proof.
  apply (X1_opt_out_header None
           {| req_headers := <["x-no-compression" := "true"]>
                               {[ "accept-encoding" := "gzip" ]} |}
           (Example.response (Some "text/plain") None (BodyStream [Example.hello]))
           (Example.at_time 100) Example.fresh "true").
  - discriminate.
  - reflexivity.
  - discriminate.
Defined.

(** X2. With [disableByHeader: false] the [x-no-compression] header has
    no influence at all: the middleware does to a request what it does to
    the same request without that header.  An empty value of the header
    has no influence either, whatever the option. *)
Theorem X2_opt_out_disabled `{NodeZlib} (options : option Opt.t) (req : Request)
    (next : Response) (clock : Clock) (w : World) :
  disableByHeader options = false
  \/ Headers.get (req_headers req) "x-no-compression" = Some EmptyString ->
  compression options req next clock w
  = compression options
      {| req_headers := delete "x-no-compression" (req_headers req) |}
      next clock w.
Proof.
  intros Hoff. unfold compression.
  assert (Hgate :
    disableByHeader options
      && JS.truthy (Headers.get (req_headers req) "x-no-compression") = false).
  { destruct Hoff as [-> | ->]; [reflexivity | apply andb_false_r]. }
  rewrite Hgate.
  assert (Hnone :
    Headers.get (delete "x-no-compression" (req_headers req)) "x-no-compression"
    = None) by apply lookup_delete_eq.
  simpl req_headers. rewrite Hnone. simpl JS.truthy. rewrite andb_false_r.
  assert (Hsame : negotiated options
                    {| req_headers := delete "x-no-compression" (req_headers req) |}
                  = negotiated options req).
  { unfold negotiated, acceptEncodings, Headers.get. simpl.
    rewrite lookup_delete_ne by discriminate. reflexivity. }
  rewrite Hsame. reflexivity.
Qed.

(** A run of X2: [disableByHeader: false], so the request with
    [x-no-compression: true] is compressed like the one without it. *)
Lemma X2_opt_out_disabled_witness :
  let options : option Opt.t :=
    Some {| Opt.brotliOptions := None;
            Opt.zlibOptions := None;
            Opt.encodings := None;
            Opt.disableByHeader := Some false;
            Opt.threshold := Some 1;
            Opt.compressStream := Some false;
            Opt.as_ := None;
            Opt.TTL := None |} in
  let req := {| req_headers := <["x-no-compression" := "true"]>
                                 {[ "accept-encoding" := "gzip" ]} |} in
  let next := Example.response (Some "text/plain") None (BodyBytes Example.hello) in
  compression options req next (Example.at_time 100) Example.fresh
  = compression options
      {| req_headers := delete "x-no-compression" (req_headers req) |}
      next (Example.at_time 100) Example.fresh
  /\ (compression options req next (Example.at_time 100) Example.fresh).1
     = Normal (rewritten gzip (BodyBytes (0x1F :: 6 :: Example.hello)) next).
Proof.
  intros options req next. split.
  - apply (X2_opt_out_disabled options req next (Example.at_time 100)
             Example.fresh).
    left. reflexivity.
  - vm_compute. reflexivity.
Defined.

(** X3. A response whose status is outside 200..299 is never rewritten:
    the middleware returns it as it is and leaves the shared state alone,
    so a redirect keeps its [Location] header and its body. *)
Theorem X3_not_ok_untouched `{NodeZlib} (options : option Opt.t) (req : Request)
    (next : Response) (clock : Clock) (w : World) :
  status next < 200 \/ 299 < status next ->
  compression options req next clock w = (Normal next, w).
Proof.
  intros Hstatus. unfold compression.
  destruct (disableByHeader options && _); [reflexivity|].
  assert (Hok : ok next = false).
  { unfold ok. destruct (Z.leb_spec 200 (status next));
      destruct (Z.leb_spec (status next) 299); simpl; try reflexivity; lia. }
  rewrite Hok. reflexivity.
Qed.

(** A run of X3: a 302 with a [Location] header and a body over the
    threshold. *)
Lemma X3_not_ok_untouched_witness :
  let next :=
    {| status := 302; statusText := "Found";
       headers := {[ "location" := "/not-found" ]};
       body := BodyBytes Example.hello |} in
  compression (Example.buffered 1 6) (Example.request "gzip") next
    (Example.at_time 100) Example.fresh
  = (Normal next, Example.fresh).
Proof.
  intros next.
  apply (X3_not_ok_untouched (Example.buffered 1 6) (Example.request "gzip")
           next (Example.at_time 100) Example.fresh).
  right. vm_compute. reflexivity.
Defined.

(** ** What the middleware does only past its gates *)

(** X4. The middleware rewrites a response only when every gate was
    passed.  If what it returns is not the response of [next()] itself,
    then the request did not opt out, the response was ok, an encoding was
    negotiated and is the [Content-Encoding] sent, and either the body was
    a stream sent through [CompressionStream] with the shared state left
    alone, or the buffered path was taken (size at or over the threshold,
    type empty or compressible) and the body sent is a byte buffer. *)
Theorem X4_rewritten_only_past_gates `{NodeZlib} (options : option Opt.t)
    (req : Request) (next : Response) (clock : Clock) (w : World)
    (r' : Response) (w' : World) :
  compression options req next clock w = (Normal r', w') ->
  r' <> next ->
  disableByHeader options
    && JS.truthy (Headers.get (req_headers req) "x-no-compression") = false
  /\ ok next = true
  /\ exists encoding,
       head (negotiated options req) = Some encoding
       /\ Headers.get (headers r') "Content-Encoding" = Some (token encoding)
       /\ ((compressStream options && isReadableStream (body next) = true
            /\ w' = w
            /\ body r' = BodyStream (CompressionStream encoding options
                                       (streamChunks (body next))))
           \/ (buffered_path options req next encoding
               /\ exists bytes, body r' = BodyBytes bytes)).
Proof.
  unfold compression. intros Hrun Hnew.
  destruct (disableByHeader options && _) eqn:Hopt;
    [injection Hrun as <- <-; contradiction|].
  destruct (ok next) eqn:Hok; simpl in Hrun;
    [|injection Hrun as <- <-; contradiction].
  destruct (negotiated options req) as [|encoding rest] eqn:Hneg;
    [injection Hrun as <- <-; contradiction|].
  split; [reflexivity|]. split; [reflexivity|]. exists encoding.
  split; [reflexivity|].
  destruct (compressStream options && _) eqn:Hstream.
  { injection Hrun as Hbuilt <-. apply newResponse_returns in Hbuilt. subst r'.
    split; [apply rewritten_content_encoding|]. left. auto. }
  destruct (Z.ltb_spec (Z.of_nat (List.length (arrayBuffer (body next))))
              (threshold options)) as [|Hsize];
    [injection Hrun as <- <-; contradiction|].
  destruct (String.eqb_spec (Headers.get (headers next) "Content-Type" ?? EmptyString)
              EmptyString) as [Hempty|Hnonempty]; simpl in Hrun.
  - destruct (getOrCompress options encoding _ clock w) as [[compressed|error] w1];
      [|discriminate].
    injection Hrun as Hbuilt <-. apply newResponse_returns in Hbuilt. subst r'.
    split; [apply rewritten_content_encoding|]. right.
    split; [|eexists; reflexivity].
    repeat split; try assumption; try (rewrite Hneg; reflexivity).
    left. exact Hempty.
  - destruct (defaultCompressibleTypes _) eqn:Htype; simpl in Hrun;
      [|injection Hrun as <- <-; contradiction].
    destruct (getOrCompress options encoding _ clock w) as [[compressed|error] w1];
      [|discriminate].
    injection Hrun as Hbuilt <-. apply newResponse_returns in Hbuilt. subst r'.
    split; [apply rewritten_content_encoding|]. right.
    split; [|eexists; reflexivity].
    repeat split; try assumption; try (rewrite Hneg; reflexivity).
    right. exact Htype.
Qed.

(** A run of X4: the gzip of "hello" under [threshold: 1]. *)
Lemma X4_rewritten_only_past_gates_witness :
  let next := Example.response (Some "text/plain") None (BodyBytes Example.hello) in
  let r' := rewritten gzip (BodyBytes (0x1F :: 6 :: Example.hello)) next in
  let w' := {| cacheStore :=
                 Cache.set 100 ∅ (cacheKey gzip Example.hello)
                   (0x1F :: 6 :: Example.hello) 86400;
               zlibCalls := [(gzip, Example.hello)] |} in
  disableByHeader (Example.buffered 1 6)
    && JS.truthy (Headers.get (req_headers (Example.request "gzip"))
                    "x-no-compression") = false
  /\ ok next = true
  /\ exists encoding,
       head (negotiated (Example.buffered 1 6) (Example.request "gzip"))
       = Some encoding
       /\ Headers.get (headers r') "Content-Encoding" = Some (token encoding)
       /\ ((compressStream (Example.buffered 1 6) && isReadableStream (body next)
            = true
            /\ w' = Example.fresh
            /\ body r' = BodyStream (CompressionStream encoding
                                       (Example.buffered 1 6)
                                       (streamChunks (body next))))
           \/ (buffered_path (Example.buffered 1 6) (Example.request "gzip") next
                 encoding
               /\ exists bytes, body r' = BodyBytes bytes)).
Proof.
  intros next r' w'.
  apply (X4_rewritten_only_past_gates (Example.buffered 1 6)
           (Example.request "gzip") next (Example.at_time 100) Example.fresh r' w').
  - vm_compute. reflexivity.
  - intros Heq.
    apply (f_equal (fun r => Headers.get (headers r) "Content-Encoding")) in Heq.
    vm_compute in Heq. discriminate.
Defined.



(** ** What a request can change *)

Lemma getOrCompress_frame `{NodeZlib} options algorithm buffer clock w :
  let w' := (getOrCompress options algorithm buffer clock w).2 in
  (zlibCalls w' = zlibCalls w
   \/ zlibCalls w' = zlibCalls w ++ [(algorithm, buffer)])
  /\ (forall k, k <> cacheKey algorithm buffer ->
                cacheStore w' !! k = cacheStore w !! k).
Proof.
  unfold getOrCompress, Cache.has, Cache.get, Cache.set.
  set (key := cacheKey algorithm buffer).
  assert (Hdel : forall k, k <> key ->
            delete key (cacheStore w) !! k = cacheStore w !! k)
    by (intros k Hk; apply lookup_delete_ne; congruence).
  destruct (cacheStore w !! key) as [e|] eqn:He.
  - destruct (Cache.live (at_has clock) e).
    + rewrite He. destruct (Cache.live (at_next clock) e); simpl; auto.
    + destruct (compressors options algorithm buffer); simpl;
        (split; [right; reflexivity|]); intros k Hk;
        [rewrite lookup_insert_ne by congruence|]; apply Hdel, Hk.
  - destruct (compressors options algorithm buffer); simpl;
      (split; [right; reflexivity|]); intros k Hk;
      [rewrite lookup_insert_ne by congruence|]; reflexivity.
Qed.

(** X6. One request calls a compressor of [node:zlib] at most once, on
    the whole body and for the negotiated encoding, and changes the cache
    at one key at most, the key of that encoding and body; every other
    entry stays as it was.  With nothing negotiated, and on the stream
    path, the shared state is not touched at all. *)
Theorem X6_one_key_one_call `{NodeZlib} (options : option Opt.t) (req : Request)
    (next : Response) (clock : Clock) (w : World) :
  let w' := (compression options req next clock w).2 in
  (zlibCalls w' = zlibCalls w
   \/ exists encoding,
        head (negotiated options req) = Some encoding
        /\ zlibCalls w' = zlibCalls w ++ [(encoding, arrayBuffer (body next))])
  /\ (forall encoding k,
        head (negotiated options req) = Some encoding ->
        k <> cacheKey encoding (arrayBuffer (body next)) ->
        cacheStore w' !! k = cacheStore w !! k)
  /\ (negotiated options req = [] -> w' = w)
  /\ (compressStream options && isReadableStream (body next) = true -> w' = w).
Proof.
  unfold compression.
  destruct (disableByHeader options && _); [simpl; auto|].
  destruct (negb (ok next)); [simpl; auto|].
  destruct (negotiated options req) as [|encoding rest]; [simpl; auto|].
  destruct (compressStream options && _); [simpl; auto|].
  destruct (_ <? threshold options); [simpl; split; [|split; [|split]]; auto; discriminate|].
  destruct (negb _); [simpl; split; [|split; [|split]]; auto; discriminate|].
  pose proof (getOrCompress_frame options encoding (arrayBuffer (body next)) clock w)
    as [Hcalls Hkeys].
  destruct (getOrCompress options encoding _ clock w) as [[c|e] w1]; simpl in *.
  - split; [destruct Hcalls; eauto|]. split; [|split; discriminate].
    intros e' k [= <-]. apply Hkeys.
  - split; [destruct Hcalls; eauto|]. split; [|split; discriminate].
    intros e' k [= <-]. apply Hkeys.
Qed.

(** ** What the rewritten response keeps *)

(** X7. Whatever the middleware returns has the status and the status
    text of the response of [next()], and the same value for every header
    other than [Vary] and [Content-Encoding]; in particular
    [Content-Type] and [Content-Length] are passed on as they were, also
    when the body is replaced by its compressed bytes. *)
Theorem X7_status_and_other_headers `{NodeZlib} (options : option Opt.t)
    (req : Request) (next : Response) (clock : Clock) (w : World)
    (r' : Response) :
  (compression options req next clock w).1 = Normal r' ->
  status r' = status next
  /\ statusText r' = statusText next
  /\ (forall name,
        JS.toLowerCase name <> "vary" ->
        JS.toLowerCase name <> "content-encoding" ->
        Headers.get (headers r') name = Headers.get (headers next) name)
  /\ Headers.get (headers r') "Content-Type"
     = Headers.get (headers next) "Content-Type"
  /\ Headers.get (headers r') "Content-Length"
     = Headers.get (headers next) "Content-Length".
Proof.
  intros Hrun.
  assert (Hothers : forall e c name,
            JS.toLowerCase name <> "vary" ->
            JS.toLowerCase name <> "content-encoding" ->
            Headers.get (headers (rewritten e c next)) name
            = Headers.get (headers next) name).
  { intros e c name Hvary Hce. unfold rewritten, Headers.get, Headers.set. simpl.
    rewrite lookup_insert_ne
      by (intros Heq; apply Hce; symmetry; exact Heq).
    unfold withVary, Headers.get, Headers.set.
    destruct (JS.truthy _); [destruct (negb _)|];
      try rewrite lookup_insert_ne
        by (intros Heq; apply Hvary; symmetry; exact Heq);
      reflexivity. }
  destruct (compression options req next clock w) as [out w'] eqn:Hc.
  simpl in Hrun. subst out.
  destruct (compression_returns _ _ _ _ _ _ _ Hc)
    as [[-> _]|(e & rest & c & _ & ->)].
  - repeat split; reflexivity.
  - split; [reflexivity|]. split; [reflexivity|].
    split; [apply Hothers|]. split; apply Hothers; discriminate.
Qed.

(** A run of X7: the five bytes of "hello" declared with
    [Content-Length: 5] come back as seven bytes, still declared as 5. *)
Lemma X7_status_and_other_headers_witness :
  let next :=
    {| status := 201; statusText := "Created";
       headers := <["content-length" := "5"]> {[ "content-type" := "text/plain" ]};
       body := BodyBytes Example.hello |} in
  let r' := rewritten gzip (BodyBytes (0x1F :: 6 :: Example.hello)) next in
  body r' = BodyBytes [0x1F; 6; 104; 101; 108; 108; 111]
  /\ Headers.get (headers r') "Content-Length" = Some "5"
  /\ status r' = status next
  /\ statusText r' = statusText next
  /\ (forall name,
        JS.toLowerCase name <> "vary" ->
        JS.toLowerCase name <> "content-encoding" ->
        Headers.get (headers r') name = Headers.get (headers next) name)
  /\ Headers.get (headers r') "Content-Type"
     = Headers.get (headers next) "Content-Type"
  /\ Headers.get (headers r') "Content-Length"
     = Headers.get (headers next) "Content-Length".
Proof.
  intros next r'.
  split; [reflexivity|]. split; [vm_compute; reflexivity|].
  apply (X7_status_and_other_headers (Example.buffered 1 6)
           (Example.request "gzip") next (Example.at_time 100) Example.fresh r').
  vm_compute. reflexivity.
Defined.

(** ** The stream path *)

(** X8. A stream body, with [compressStream] in force, skips the size and
    type gates: whatever its length and its [Content-Type], an ok response
    to a request that did not opt out and negotiated an encoding is sent
    through [CompressionStream] for that encoding, and neither the cache
    nor a compressor of [node:zlib] is used.  A response that has a body
    has no null body status, so the constructor of [Response] takes the
    compressed stream; of a record that holds a stream and such a status
    the statement says that the constructor throws. *)
Theorem X8_stream_path `{NodeZlib} (options : option Opt.t) (req : Request)
    (next : Response) (clock : Clock) (w : World)
    (encoding : CompressionEncoding) (chunks : list (list Z)) :
  disableByHeader options
    && JS.truthy (Headers.get (req_headers req) "x-no-compression") = false ->
  ok next = true ->
  head (negotiated options req) = Some encoding ->
  compressStream options = true ->
  body next = BodyStream chunks ->
  compression options req next clock w
  = (if nullBodyStatus (status next)
     then Throw "TypeError"
     else Normal (rewritten encoding
                    (BodyStream (CompressionStream encoding options chunks))
                    next),
     w).
Proof.
  intros Hopt Hok Hneg Hflag Hbody. unfold compression.
  rewrite Hopt, Hok, Hflag, Hbody. simpl.
  destruct (negotiated options req) as [|e rest]; [discriminate|].
  injection Hneg as ->. rewrite (newResponse_ok _ _ _ Hok). reflexivity.
Qed.

(** A run of X8: an [image/png] stream of five bytes, the options left
    out: below the threshold and not a compressible type, and rewritten
    all the same. *)
Lemma X8_stream_path_witness :
  let next := Example.response (Some "image/png") None (BodyStream [Example.hello]) in
  Z.of_nat (List.length (arrayBuffer (body next))) < threshold None
  /\ defaultCompressibleTypes "image/png" = false
  /\ compression None (Example.request "br") next (Example.at_time 100)
       Example.fresh
     = (Normal (rewritten br
                  (BodyStream (CompressionStream br None [Example.hello])) next),
        Example.fresh).
Proof.
  intros next.
  split; [vm_compute; reflexivity|]. split; [vm_compute; reflexivity|].
  exact (X8_stream_path None (Example.request "br") next (Example.at_time 100)
           Example.fresh br [Example.hello] eq_refl eq_refl eq_refl eq_refl
           eq_refl).
Defined.

(** ** More on the negotiation *)

(** X9. The negotiation reads the client's list as a set: two requests
    whose [Accept-Encoding] lists hold the same tokens, in any order and
    with any repetition, negotiate the same encodings in the same order,
    that of the configuration. *)
Theorem X9_client_order_irrelevant (options : option Opt.t) (req1 req2 : Request) :
  (forall t, t ∈ acceptEncodings req1 <-> t ∈ acceptEncodings req2) ->
  negotiated options req1 = negotiated options req2.
Proof.
  intros Hsame. unfold negotiated. apply filter_ext. intros e.
  destruct (JS.includes (acceptEncodings req2) (token e)) eqn:H2.
  - apply includes_spec, Hsame, includes_spec, H2.
  - apply includes_false. intros H1. apply includes_false in H2.
    apply H2, Hsame, H1.
Qed.

(** A run of X9: [deflate, gzip] and [gzip, deflate, gzip]. *)
Lemma X9_client_order_irrelevant_witness :
  negotiated None (Example.request "deflate, gzip")
  = negotiated None (Example.request "gzip, deflate, gzip")
  /\ negotiated None (Example.request "deflate, gzip") = [gzip; deflate].
Proof.
  split; [|reflexivity].
  apply (X9_client_order_irrelevant None (Example.request "deflate, gzip")
           (Example.request "gzip, deflate, gzip")).
  intros t.
  change (acceptEncodings (Example.request "deflate, gzip"))
    with ["deflate"; "gzip"].
  change (acceptEncodings (Example.request "gzip, deflate, gzip"))
    with ["gzip"; "deflate"; "gzip"].
  rewrite !elem_of_cons. rewrite !elem_of_nil. tauto.
Defined.

(** X10. A request without [Accept-Encoding], or with an empty one, is
    never answered compressed: the middleware returns the response of
    [next()] itself and leaves the shared state alone. *)
Theorem X10_no_accept_encoding `{NodeZlib} (options : option Opt.t) (req : Request)
    (next : Response) (clock : Clock) (w : World) :
  Headers.get (req_headers req) "accept-encoding" = None
  \/ Headers.get (req_headers req) "accept-encoding" = Some EmptyString ->
  compression options req next clock w = (Normal next, w).
Proof.
  intros Hheader.
  assert (Hnone : negotiated options req = []).
  { unfold negotiated, acceptEncodings. apply filter_nil_iff, Forall_forall.
    intros e _. destruct Hheader as [-> | ->]; destruct e; reflexivity. }
  unfold compression. rewrite Hnone.
  destruct (disableByHeader options && _); [reflexivity|].
  destruct (negb (ok next)); reflexivity.
Qed.

(** A run of X10: no request header at all. *)
Lemma X10_no_accept_encoding_witness :
  compression (Example.buffered 1 6) {| req_headers := ∅ |}
    (Example.response (Some "text/plain") None (BodyBytes Example.hello))
    (Example.at_time 100) Example.fresh
  = (Normal (Example.response (Some "text/plain") None (BodyBytes Example.hello)),
     Example.fresh).
Proof.
  apply (X10_no_accept_encoding (Example.buffered 1 6) {| req_headers := ∅ |}
           (Example.response (Some "text/plain") None (BodyBytes Example.hello))
           (Example.at_time 100) Example.fresh).
  left. reflexivity.
Defined.

Lemma append_empty_r (s : string) : s +:+ EmptyString = s.
Proof.
  induction s as [|c s IH]; [reflexivity|].
  change (String c (s +:+ EmptyString) = String c s). f_equal. exact IH.
Qed.

Lemma split_from_nonempty (sep : string) (skip : nat) (s : string) :
  JS.split_from sep skip s <> [].
Proof.
  revert skip. induction s as [|c s IH]; intros skip; simpl; [discriminate|].
  destruct skip as [|k]; [|apply IH].
  destruct (JS.startsWith sep (String c s)); [discriminate|].
  destruct (JS.split_from sep 0 s); discriminate.
Qed.

(** Splitting on comma-space runs over a piece without a comma. *)
Lemma split_past_token (t s : string) :
  JS.hasChar "," t = false ->
  JS.split ", " (t +:+ s)
  = match JS.split ", " s with
    | piece :: rest => (t +:+ piece) :: rest
    | [] => [t]
    end.
Proof.
  unfold JS.split. induction t as [|c t IH]; intros Ht.
  - change (EmptyString +:+ s) with s.
    destruct (JS.split_from ", " 0 s) eqn:Hs; [|reflexivity].
    exfalso. exact (split_from_nonempty _ _ _ Hs).
  - change (Ascii.eqb "," c || JS.hasChar "," t = false) in Ht.
    apply orb_false_iff in Ht as [Hc Ht].
    change (String c t +:+ s) with (String c (t +:+ s)).
    change (JS.split_from ", " 0 (String c (t +:+ s)))
      with (if Ascii.eqb "," c && JS.startsWith " " (t +:+ s)
            then EmptyString :: JS.split_from ", " 1 (t +:+ s)
            else match JS.split_from ", " 0 (t +:+ s) with
                 | piece :: rest => String c piece :: rest
                 | [] => [String c EmptyString]
                 end).
    rewrite Hc, (IH Ht). simpl.
    destruct (JS.split_from ", " 0 s); reflexivity.
Qed.

Lemma split_join_comma_space (tokens : list string) :
  tokens <> [] ->
  Forall (fun t => JS.hasChar "," t = false) tokens ->
  JS.split ", " (JS.join ", " tokens) = tokens.
Proof.
  induction tokens as [|t rest IH]; intros Hne Hclean; [contradiction|].
  inversion Hclean as [|? ? Ht Hrest]; subst.
  destruct rest as [|t2 rest].
  - pose proof (split_past_token t EmptyString Ht) as Hsplit.
    rewrite append_empty_r in Hsplit.
    change (JS.split ", " t = [t +:+ EmptyString]) in Hsplit.
    rewrite append_empty_r in Hsplit. exact Hsplit.
  - change (JS.join ", " (t :: t2 :: rest))
      with (t +:+ ", " +:+ JS.join ", " (t2 :: rest)).
    rewrite (split_past_token _ _ Ht).
    change (JS.split ", " (", " +:+ JS.join ", " (t2 :: rest)))
      with (EmptyString :: JS.split ", " (JS.join ", " (t2 :: rest))).
    cbv beta iota.
    rewrite append_empty_r, IH; [reflexivity | discriminate | exact Hrest].
Qed.

(** X11. An [Accept-Encoding] value that lists tokens separated by
    comma-space, none of them holding a comma, is read back as exactly
    these tokens; so a configured encoding is negotiated if and only if
    its token is one of them.  Parameters stay part of the token: [gzip]
    is not found in [gzip;q=0.8]. *)
Theorem X11_comma_space_list (options : option Opt.t) (req : Request)
    (tokens : list string) :
  tokens <> [] ->
  Forall (fun t => JS.hasChar "," t = false) tokens ->
  Headers.get (req_headers req) "accept-encoding" = Some (JS.join ", " tokens) ->
  acceptEncodings req = tokens
  /\ forall e, e ∈ negotiated options req <->
               e ∈ defaultEncodings options /\ token e ∈ tokens.
Proof.
  intros Hne Hclean Hheader.
  assert (Hlist : acceptEncodings req = tokens).
  { unfold acceptEncodings. rewrite Hheader.
    apply split_join_comma_space; assumption. }
  split; [exact Hlist|]. intros e. unfold negotiated.
  rewrite list_elem_of_In, filter_In, <- list_elem_of_In, includes_spec, Hlist.
  reflexivity.
Qed.

(** A run of X11: [gzip;q=0.8, br]. *)
Lemma X11_comma_space_list_witness :
  acceptEncodings (Example.request "gzip;q=0.8, br") = ["gzip;q=0.8"; "br"]
  /\ forall e, e ∈ negotiated None (Example.request "gzip;q=0.8, br") <->
               e ∈ defaultEncodings None /\ token e ∈ ["gzip;q=0.8"; "br"].
Proof.
  apply (X11_comma_space_list None (Example.request "gzip;q=0.8, br")
           ["gzip;q=0.8"; "br"]).
  - discriminate.
  - repeat constructor.
  - reflexivity.
Defined.

(** ** More on the classifier *)

Lemma string_append_assoc (a b c : string) : (a +:+ b) +:+ c = a +:+ b +:+ c.
Proof.
  induction a as [|x a IH]; [reflexivity|].
  change (String x ((a +:+ b) +:+ c) = String x (a +:+ b +:+ c)).
  f_equal. exact IH.
Qed.

(** A literal that is not at the start of [rest] is not at the start of
    [rest] followed by a character the literal does not hold. *)
Lemma startsWith_extended (lit rest : string) (c : ascii) (p : string) :
  JS.hasChar c lit = false ->
  JS.startsWith lit rest = false ->
  JS.startsWith lit (rest +:+ String c p) = false.
Proof.
  revert rest. induction lit as [|a lit IH]; intros rest Hc Hrest;
    [discriminate|].
  change (Ascii.eqb c a || JS.hasChar c lit = false) in Hc.
  apply orb_false_iff in Hc as [Hca Hlit].
  destruct rest as [|b rest].
  - change (Ascii.eqb a c && JS.startsWith lit p = false).
    rewrite Ascii.eqb_sym, Hca. reflexivity.
  - change (Ascii.eqb a b && JS.startsWith lit rest = false) in Hrest.
    change (Ascii.eqb a b && JS.startsWith lit (rest +:+ String c p) = false).
    destruct (Ascii.eqb a b); [|reflexivity]. simpl in *.
    apply IH; assumption.
Qed.

Lemma end_then_parameters (post p : string) :
  post = EmptyString \/ (exists rest, post = ";" +:+ rest) ->
  (post +:+ ";" +:+ p) = EmptyString
  \/ exists rest, post +:+ ";" +:+ p = ";" +:+ rest.
Proof.
  intros [-> | [rest ->]]; right.
  - exists p. reflexivity.
  - exists (rest +:+ ";" +:+ p). reflexivity.
Qed.

(** X12. Parameters never take a match away: a [Content-Type] value the
    classifier accepts is still accepted when [;] and any parameters are
    appended to it. *)
Theorem X12_parameters_keep_match (contentType parameters : string) :
  defaultCompressibleTypes contentType = true ->
  defaultCompressibleTypes (contentType +:+ ";" +:+ parameters) = true.
Proof.
  unfold defaultCompressibleTypes. rewrite !classifier_spec.
  intros [(rest & -> & Hrest)
         |[(pre & sep & word & post & -> & Hsep & Hword & Hend)
          |(pre & post & -> & Hend)]].
  - left. exists (rest +:+ ";" +:+ parameters). split; [reflexivity|].
    apply startsWith_extended; [reflexivity | exact Hrest].
  - right. left. exists pre, sep, word, (post +:+ ";" +:+ parameters).
    split; [rewrite !string_append_assoc; reflexivity|].
    split; [exact Hsep|]. split; [exact Hword|].
    apply end_then_parameters, Hend.
  - right. right. exists pre, (post +:+ ";" +:+ parameters).
    split; [rewrite !string_append_assoc; reflexivity|].
    apply end_then_parameters, Hend.
Qed.

(** A run of X12: [application/json] with a charset. *)
Lemma X12_parameters_keep_match_witness :
  defaultCompressibleTypes ("application/json" +:+ ";" +:+ " charset=utf-8") = true.
Proof.
  apply (X12_parameters_keep_match "application/json" " charset=utf-8").
  vm_compute. reflexivity.
Defined.

(** ** The options handed to [node:zlib] *)

(** X13. What the compressors are called with.  [compressors] hands the
    body to [gzipSync] and [deflateSync] with [zlibOptions], and to
    [brotliCompressSync] with [brotliOptions]; so [gzipSync] and
    [deflateSync] always get a [level]: the one of the [zlibOptions]
    given, and 6 when none is given; every other setting given is handed
    on as it is.  For brotli the [params] given replace the default ones
    as a whole (mode generic, quality 11), which are used only when no
    [params] are given. *)
Theorem X13_compressor_options `{NodeZlib} (options : option Opt.t)
    (buffer : list Z) :
  let given := Opt.prop Opt.zlibOptions options ?? ∅ in
  let defaults : gmap Z Z :=
    <[constants.BROTLI_PARAM_QUALITY := constants.BROTLI_DEFAULT_QUALITY]>
      {[ constants.BROTLI_PARAM_MODE := constants.BROTLI_MODE_GENERIC ]} in
  compressors options gzip buffer = gzipSync buffer (zlibOptions options)
  /\ compressors options deflate buffer = deflateSync buffer (zlibOptions options)
  /\ compressors options br buffer
     = brotliCompressSync buffer (brotliOptions options)
  /\ zlibOptions options !! "level" = Some ((given !! "level") ?? 6)
  /\ (forall k, k <> "level" -> zlibOptions options !! k = given !! k)
  /\ params (brotliOptions options)
     = Some ((Opt.prop Opt.brotliOptions options ≫= params) ?? defaults)
  /\ (forall b p, Opt.prop Opt.brotliOptions options = Some b ->
                  params b = Some p ->
                  params (brotliOptions options) = Some p).
Proof.
  intros given defaults.
  do 3 (split; [reflexivity|]).
  unfold zlibOptions. fold given.
  split; [|split; [|split]].
  - destruct (given !! "level") as [l|] eqn:Hl; simpl;
      apply (lookup_union_Some_raw given); [left; exact Hl|].
    right. split; [exact Hl | apply lookup_singleton_eq].
  - intros k Hk. destruct (given !! k) as [v|] eqn:Hv.
    + apply (lookup_union_Some_raw given). left. exact Hv.
    + apply (lookup_union_None_2 given); [exact Hv|].
      apply lookup_singleton_ne. congruence.
  - unfold brotliOptions. destruct (Opt.prop Opt.brotliOptions options);
      reflexivity.
  - intros b p Hb Hp. unfold brotliOptions. rewrite Hb. simpl. rewrite Hp.
    reflexivity.
Qed.

(** ** The two lookups of [getOrCompress] *)

(** X14. [getOrCompress] asks [has] and then [get], and passes on what
    [get] answers.  When the entry is still visible to [has] and has
    expired when [get] reads the clock, [get] answers undefined: no
    compressor is called, the entry is evicted, and the middleware hands
    an empty body to the constructor of [Response]: for every status but
    the null body statuses it sends a response with the
    [Content-Encoding] set and an empty body, and for those the
    constructor throws. *)
Theorem X14_expired_between_has_and_get `{NodeZlib} (options : option Opt.t)
    (req : Request) (next : Response) (encoding : CompressionEncoding)
    (clock : Clock) (w : World) (e : Cache.entry) :
  let key := cacheKey encoding (arrayBuffer (body next)) in
  buffered_path options req next encoding ->
  cacheStore w !! key = Some e ->
  Cache.live (at_has clock) e = true ->
  Cache.live (at_next clock) e = false ->
  getOrCompress options encoding (arrayBuffer (body next)) clock w
  = (Normal None,
     {| cacheStore := delete key (cacheStore w); zlibCalls := zlibCalls w |})
  /\ compression options req next clock w
     = (if nullBodyStatus (status next)
        then Throw "TypeError"
        else Normal (rewritten encoding (BodyBytes []) next),
        {| cacheStore := delete key (cacheStore w); zlibCalls := zlibCalls w |}).
Proof.
  intros key Hpath Hentry Hhas Hget. subst key.
  assert (Hinner :
    getOrCompress options encoding (arrayBuffer (body next)) clock w
    = (Normal None,
       {| cacheStore := delete (cacheKey encoding (arrayBuffer (body next)))
                          (cacheStore w);
          zlibCalls := zlibCalls w |})).
  { unfold getOrCompress, Cache.has, Cache.get.
    rewrite Hentry, Hhas, Hentry, Hget. reflexivity. }
  split; [exact Hinner|].
  rewrite (compression_buffered _ _ _ _ _ _ Hpath), Hinner.
  destruct Hpath as (_ & Hok & _).
  rewrite (newResponse_ok _ _ _ Hok). reflexivity.
Qed.

(** A run of X14: an entry stored at time 0 for 100 seconds, [has] at 99
    and [get] at 100. *)
Lemma X14_expired_between_has_and_get_witness :
  let next := Example.response (Some "text/plain") None (BodyBytes Example.hello) in
  let key := cacheKey gzip Example.hello in
  let w := {| cacheStore := {[ key := Cache.Entry [0x1F; 6] 0 100 ]};
              zlibCalls := [] |} in
  let clock := {| at_has := 99; at_next := 100 |} in
  getOrCompress (Example.buffered 1 6) gzip (arrayBuffer (body next)) clock w
  = (Normal None,
     {| cacheStore := delete key (cacheStore w); zlibCalls := zlibCalls w |})
  /\ compression (Example.buffered 1 6) (Example.request "gzip") next clock w
     = (Normal (rewritten gzip (BodyBytes []) next),
        {| cacheStore := delete key (cacheStore w); zlibCalls := zlibCalls w |}).
Proof.
  intros next key w clock.
  refine (X14_expired_between_has_and_get (Example.buffered 1 6)
            (Example.request "gzip") next gzip clock w
            (Cache.Entry [0x1F; 6] 0 100) _ _ eq_refl eq_refl).
  - repeat split; try (vm_compute; reflexivity).
    + vm_compute. discriminate.
    + right. vm_compute. reflexivity.
  - apply lookup_singleton_eq.
Defined.

(** ** The cache key *)

(** X15. The cache key is the MD5 of the key text, and the key text
    tells the algorithm and the decoded body apart: two key texts are
    equal only for the same algorithm and the same decoded text.  So the
    entries of one algorithm are not reached under another, short of a
    collision of MD5: two calls with the same cache key have the same
    algorithm and the same decoded text, or their two different key texts
    have the same MD5. *)
Theorem X15_key_text_injective (algorithm1 algorithm2 : CompressionEncoding)
    (buffer1 buffer2 : list Z) :
  cacheKey algorithm1 buffer1 = MD5.md5_hex (keyText algorithm1 buffer1)
  /\ (keyText algorithm1 buffer1 = keyText algorithm2 buffer2
      <-> algorithm1 = algorithm2 /\ Utf8.decode buffer1 = Utf8.decode buffer2)
  /\ (cacheKey algorithm1 buffer1 = cacheKey algorithm2 buffer2 ->
      (algorithm1 = algorithm2 /\ Utf8.decode buffer1 = Utf8.decode buffer2)
      \/ (keyText algorithm1 buffer1 <> keyText algorithm2 buffer2
          /\ MD5.md5_hex (keyText algorithm1 buffer1)
             = MD5.md5_hex (keyText algorithm2 buffer2))).
Proof.
  assert (Htext : keyText algorithm1 buffer1 = keyText algorithm2 buffer2
                  <-> algorithm1 = algorithm2
                      /\ Utf8.decode buffer1 = Utf8.decode buffer2).
  { unfold keyText. split; [|intros [-> ->]; reflexivity].
    destruct algorithm1, algorithm2; simpl; intros Heq;
      try (injection Heq as ->; split; reflexivity);
      exfalso; discriminate Heq. }
  split; [reflexivity|]. split; [exact Htext|].
  intros Hkey.
  destruct (decide (keyText algorithm1 buffer1 = keyText algorithm2 buffer2))
    as [Hsame|Hdiff].
  - left. apply Htext, Hsame.
  - right. split; [exact Hdiff | exact Hkey].
Qed.

Lemma le_bytes_length (n : nat) (x : Z) : List.length (MD5.le_bytes n x) = n.
Proof.
  revert x. induction n as [|n IH]; intros x; simpl; [reflexivity|].
  rewrite IH. reflexivity.
Qed.

Lemma le_bytes_range (n : nat) (x : Z) :
  Forall (fun b => 0 <= b < 256) (MD5.le_bytes n x).
Proof.
  revert x. induction n as [|n IH]; intros x; simpl; constructor.
  - apply Z.mod_pos_bound. lia.
  - apply IH.
Qed.

Lemma digest_shape (msg : list Z) :
  List.length (MD5.digest msg) = 16%nat
  /\ Forall (fun b => 0 <= b < 256) (MD5.digest msg).
Proof.
  unfold MD5.digest. destruct (MD5.blocks _ _ _) as [[[a b] c] d].
  rewrite !length_app, !le_bytes_length. split; [reflexivity|].
  rewrite !Forall_app. auto using le_bytes_range.
Qed.

Lemma hex_digit_is_hex (n : Z) :
  0 <= n < 16 -> JS.hasChar (MD5.hex_digit n) "0123456789abcdef" = true.
Proof.
  intros Hn. rewrite <- (Z2Nat.id n) by lia.
  assert (Hk : (Z.to_nat n < 16)%nat) by lia.
  revert Hk. generalize (Z.to_nat n) as k. intros k Hk.
  do 16 (destruct k as [|k]; [reflexivity|]). lia.
Qed.

Lemma hex_shape (bytes : list Z) :
  Forall (fun b => 0 <= b < 256) bytes ->
  String.length (MD5.hex bytes) = (2 * List.length bytes)%nat
  /\ forall c, JS.hasChar c (MD5.hex bytes) = true ->
               JS.hasChar c "0123456789abcdef" = true.
Proof.
  induction 1 as [|b bytes Hb _ [IHlen IHchars]]; simpl.
  - split; [reflexivity | discriminate].
  - split; [rewrite IHlen; lia|].
    intros c Hc.
    apply orb_true_iff in Hc as [Hc|Hc];
      [|apply orb_true_iff in Hc as [Hc|Hc]].
    + apply Ascii.eqb_eq in Hc. subst c. apply hex_digit_is_hex.
      split; [apply Z.div_pos; lia | apply Z.div_lt_upper_bound; lia].
    + apply Ascii.eqb_eq in Hc. subst c. apply hex_digit_is_hex.
      apply Z.mod_pos_bound. lia.
    + apply IHchars, Hc.
Qed.

(** X16. A cache key is always 32 characters long, each a digit or a
    letter from a to f, whatever the algorithm and however long the body:
    the store holds the digest, never the body text, as its key. *)
Theorem X16_cache_key_format (algorithm : CompressionEncoding) (buffer : list Z) :
  String.length (cacheKey algorithm buffer) = 32%nat
  /\ forall c, JS.hasChar c (cacheKey algorithm buffer) = true ->
               JS.hasChar c "0123456789abcdef" = true.
Proof.
  unfold cacheKey, keyText, MD5.md5_hex.
  destruct (digest_shape
              (Utf8.encode (Utf8.of_string (token algorithm) ++ [58]
                            ++ Utf8.decode buffer))) as [Hlen Hrange].
  destruct (hex_shape _ Hrange) as [Hhex Hchars].
  split; [rewrite Hhex, Hlen; reflexivity | exact Hchars].
Qed.

(** ** Bodies that are well-formed UTF-8 *)

Lemma lor_add (a b n : Z) :
  0 <= n -> 0 <= b < 2 ^ n -> Z.lor (a * 2 ^ n) b = a * 2 ^ n + b.
Proof.
  intros Hn Hb.
  assert (Hdisjoint : Z.land (a * 2 ^ n) b = 0).
  { apply Z.bits_inj'. intros i Hi. rewrite Z.land_spec, Z.bits_0.
    destruct (Z.lt_ge_cases i n) as [Hlt|Hge].
    - rewrite Z.mul_pow2_bits_low by lia. reflexivity.
    - replace b with (b mod 2 ^ n) by (apply Z.mod_small; lia).
      rewrite Z.mod_pow2_bits_high by lia. apply andb_false_r. }
  rewrite <- Z.lxor_lor by exact Hdisjoint.
  symmetry. apply Z.add_nocarry_lxor, Hdisjoint.
Qed.

Lemma land_low (x n : Z) : 0 <= n -> Z.land x (2 ^ n - 1) = x mod 2 ^ n.
Proof.
  intros Hn. replace (2 ^ n - 1) with (Z.ones n)
    by (rewrite Z.ones_equiv; lia).
  apply Z.land_ones, Hn.
Qed.

Lemma land_63 (x : Z) : Z.land x 63 = x mod 64.
Proof. exact (land_low x 6 ltac:(lia)). Qed.

Lemma land_31 (x : Z) : Z.land x 31 = x mod 32.
Proof. exact (land_low x 5 ltac:(lia)). Qed.

Lemma land_15 (x : Z) : Z.land x 15 = x mod 16.
Proof. exact (land_low x 4 ltac:(lia)). Qed.

Lemma land_7 (x : Z) : Z.land x 7 = x mod 8.
Proof. exact (land_low x 3 ltac:(lia)). Qed.

(** The bytes [encode_scalar] gives, in arithmetic. *)
Lemma encode_scalar_bytes (cp : Z) :
  0 <= cp < 0x110000 ->
  Utf8.encode_scalar cp
  = if cp <? 0x80 then [cp]
    else if cp <? 0x800 then [192 + cp / 64; 128 + cp mod 64]
    else if cp <? 0x10000
    then [224 + cp / 4096; 128 + (cp / 64) mod 64; 128 + cp mod 64]
    else [240 + cp / 262144; 128 + (cp / 4096) mod 64;
          128 + (cp / 64) mod 64; 128 + cp mod 64].
Proof.
  intros Hcp. unfold Utf8.encode_scalar.
  rewrite !Z.shiftr_div_pow2 by lia.
  rewrite !land_63.
  change (2 ^ 6) with 64. change (2 ^ 12) with 4096. change (2 ^ 18) with 262144.
  assert (Hcont : forall x, Z.lor 0x80 (x mod 64) = 128 + x mod 64).
  { intros x. apply (lor_add 2 (x mod 64) 6); [lia|].
    apply Z.mod_pos_bound. lia. }
  rewrite !Hcont.
  destruct (Z.ltb_spec cp 0x80); [reflexivity|].
  destruct (Z.ltb_spec cp 0x800).
  { f_equal. apply (lor_add 3 (cp / 64) 6); [lia|].
    split; [apply Z.div_pos; lia | apply Z.div_lt_upper_bound; lia]. }
  destruct (Z.ltb_spec cp 0x10000).
  { f_equal. apply (lor_add 7 (cp / 4096) 5); [lia|].
    split; [apply Z.div_pos; lia | apply Z.div_lt_upper_bound; lia]. }
  f_equal. apply (lor_add 15 (cp / 262144) 4); [lia|].
  split; [apply Z.div_pos; lia | apply Z.div_lt_upper_bound; lia].
Qed.

(** One continuation byte in the expected range. *)
Lemma handler_continuation (d : Utf8.decoder) (b : Z) :
  Utf8.bytes_needed d <> 0 ->
  Utf8.lower d <= b <= Utf8.upper d ->
  Utf8.handler d b
  = let cp := Utf8.code_point d * 64 + b mod 64 in
    if Utf8.bytes_seen d + 1 =? Utf8.bytes_needed d
    then (Utf8.initial, [cp])
    else (Utf8.Decoder cp (Utf8.bytes_seen d + 1) (Utf8.bytes_needed d) 0x80 0xBF,
          []).
Proof.
  intros Hneeded Hrange. unfold Utf8.handler.
  destruct (Z.eqb_spec (Utf8.bytes_needed d) 0) as [|_]; [contradiction|].
  destruct (Z.leb_spec (Utf8.lower d) b); [|lia].
  destruct (Z.leb_spec b (Utf8.upper d)); [|lia]. simpl.
  rewrite Z.shiftl_mul_pow2 by lia.
  rewrite land_63.
  rewrite (lor_add (Utf8.code_point d) (b mod 64) 6);
    [reflexivity | lia | apply Z.mod_pos_bound; lia].
Qed.

Ltac euclid cp :=
  pose proof (Z.div_mod cp 64 ltac:(lia));
  pose proof (Z.mod_pos_bound cp 64 ltac:(lia));
  pose proof (Z.div_mod (cp / 64) 64 ltac:(lia));
  pose proof (Z.mod_pos_bound (cp / 64) 64 ltac:(lia));
  pose proof (Z.div_mod (cp / 4096) 64 ltac:(lia));
  pose proof (Z.mod_pos_bound (cp / 4096) 64 ltac:(lia));
  assert (cp / 4096 = cp / 64 / 64)
    by (rewrite Z.div_div by lia; reflexivity);
  assert (cp / 262144 = cp / 4096 / 64)
    by (rewrite Z.div_div by lia; reflexivity).

(** The decoder reads the encoding of a scalar value back as that
    value, and is then where it started. *)
Lemma run_encode_scalar (cp : Z) (rest : list Z) :
  Utf8.scalar cp ->
  Utf8.run Utf8.initial (Utf8.encode_scalar cp ++ rest)
  = cp :: Utf8.run Utf8.initial rest.
Proof.
  intros Hscalar.
  assert (Hcp : 0 <= cp < 0x110000) by (unfold Utf8.scalar in Hscalar; lia).
  rewrite (encode_scalar_bytes cp Hcp). euclid cp.
  destruct (Z.ltb_spec cp 0x80) as [Hr1|Hr1].
  { simpl. unfold Utf8.handler, Utf8.lead; simpl.
    destruct (Z.leb_spec cp 0x7F); [reflexivity | lia]. }
  destruct (Z.ltb_spec cp 0x800) as [Hr2|Hr2].
  { set (b1 := 192 + cp / 64). set (b2 := 128 + cp mod 64).
    assert (Hlead : Utf8.handler Utf8.initial b1
                    = (Utf8.Decoder (cp / 64) 0 1 0x80 0xBF, [])).
    { unfold Utf8.handler, Utf8.lead; simpl.
      destruct (Z.leb_spec b1 0x7F); [subst b1; lia|].
      destruct (Z.leb_spec 0xC2 b1); [|subst b1; lia].
      destruct (Z.leb_spec b1 0xDF); [|subst b1; lia]. simpl.
      rewrite land_31. do 2 f_equal. subst b1.
      rewrite <- (Z.mod_unique (192 + cp / 64) 32 6 (cp / 64)); lia. }
    simpl. rewrite Hlead. simpl.
    rewrite handler_continuation by (simpl; subst b2; lia). simpl.
    do 2 f_equal. subst b2.
    rewrite <- (Z.mod_unique (128 + cp mod 64) 64 2 (cp mod 64)); lia. }
  destruct (Z.ltb_spec cp 0x10000) as [Hr3|Hr3].
  { set (b1 := 224 + cp / 4096). set (b2 := 128 + (cp / 64) mod 64).
    set (b3 := 128 + cp mod 64).
    assert (Hlead : Utf8.handler Utf8.initial b1
                    = (Utf8.Decoder (cp / 4096) 0 2
                         (if b1 =? 0xE0 then 0xA0 else 0x80)
                         (if b1 =? 0xED then 0x9F else 0xBF), [])).
    { unfold Utf8.handler, Utf8.lead; simpl.
      destruct (Z.leb_spec b1 0x7F); [subst b1; lia|].
      destruct (Z.leb_spec 0xC2 b1); [|subst b1; lia].
      destruct (Z.leb_spec b1 0xDF); [subst b1; lia|].
      destruct (Z.leb_spec 0xE0 b1); [|subst b1; lia].
      destruct (Z.leb_spec b1 0xEF); [|subst b1; lia]. simpl.
      rewrite land_15. do 2 f_equal. subst b1.
      rewrite <- (Z.mod_unique (224 + cp / 4096) 16 14 (cp / 4096)); lia. }
    simpl. rewrite Hlead. simpl.
    rewrite handler_continuation.
    2: { simpl. discriminate. }
    2: { simpl. unfold Utf8.scalar in Hscalar. subst b1 b2.
         destruct (Z.eqb_spec (224 + cp / 4096) 0xE0);
           destruct (Z.eqb_spec (224 + cp / 4096) 0xED); lia. }
    simpl.
    rewrite handler_continuation by (simpl; subst b3; lia). simpl.
    do 2 f_equal. subst b2 b3.
    rewrite <- (Z.mod_unique (128 + (cp / 64) mod 64) 64 2 ((cp / 64) mod 64))
      by lia.
    rewrite <- (Z.mod_unique (128 + cp mod 64) 64 2 (cp mod 64)) by lia.
    lia. }
  set (b1 := 240 + cp / 262144). set (b2 := 128 + (cp / 4096) mod 64).
  set (b3 := 128 + (cp / 64) mod 64). set (b4 := 128 + cp mod 64).
  assert (Hlead : Utf8.handler Utf8.initial b1
                  = (Utf8.Decoder (cp / 262144) 0 3
                       (if b1 =? 0xF0 then 0x90 else 0x80)
                       (if b1 =? 0xF4 then 0x8F else 0xBF), [])).
  { unfold Utf8.handler, Utf8.lead; simpl.
    destruct (Z.leb_spec b1 0x7F); [subst b1; lia|].
    destruct (Z.leb_spec 0xC2 b1); [|subst b1; lia].
    destruct (Z.leb_spec b1 0xDF); [subst b1; lia|].
    destruct (Z.leb_spec 0xE0 b1); [|subst b1; lia].
    destruct (Z.leb_spec b1 0xEF); [subst b1; lia|].
    destruct (Z.leb_spec 0xF0 b1); [|subst b1; lia].
    destruct (Z.leb_spec b1 0xF4); [|subst b1; lia]. simpl.
    rewrite land_7. do 2 f_equal. subst b1.
    rewrite <- (Z.mod_unique (240 + cp / 262144) 8 30 (cp / 262144)); lia. }
  simpl. rewrite Hlead. simpl.
  rewrite handler_continuation.
  2: { simpl. discriminate. }
  2: { simpl. subst b1 b2.
       destruct (Z.eqb_spec (240 + cp / 262144) 0xF0);
         destruct (Z.eqb_spec (240 + cp / 262144) 0xF4); lia. }
  simpl.
  rewrite handler_continuation by (simpl; subst b3; lia). simpl.
  rewrite handler_continuation by (simpl; subst b4; lia). simpl.
  do 2 f_equal. subst b2 b3 b4.
  rewrite <- (Z.mod_unique (128 + (cp / 4096) mod 64) 64 2 ((cp / 4096) mod 64))
    by lia.
  rewrite <- (Z.mod_unique (128 + (cp / 64) mod 64) 64 2 ((cp / 64) mod 64))
    by lia.
  rewrite <- (Z.mod_unique (128 + cp mod 64) 64 2 (cp mod 64)) by lia.
  lia.
Qed.

Lemma run_encode (text : list Z) :
  Forall Utf8.scalar text -> Utf8.run Utf8.initial (Utf8.encode text) = text.
Proof.
  induction 1 as [|cp text Hcp _ IH]; [reflexivity|].
  change (Utf8.encode (cp :: text))
    with (Utf8.encode_scalar cp ++ Utf8.encode text).
  rewrite (run_encode_scalar _ _ Hcp), IH. reflexivity.
Qed.

(** X17. For bodies that are the UTF-8 of a text, the text the cache key
    is taken from is the whole story: decoding gives the text back, so two
    such bodies with the same decoded text are the same bytes.  The one
    exception is a leading byte order mark, which the decoder drops: the
    body with the mark and the body without it decode to the same text
    and share their cache key. *)
Theorem X17_wellformed_utf8_bodies (text1 text2 : list Z) :
  Forall Utf8.scalar text1 ->
  Forall Utf8.scalar text2 ->
  head text1 <> Some 0xFEFF ->
  head text2 <> Some 0xFEFF ->
  Utf8.decode (Utf8.encode text1) = text1
  /\ (Utf8.decode (Utf8.encode text1) = Utf8.decode (Utf8.encode text2) ->
      Utf8.encode text1 = Utf8.encode text2)
  /\ Utf8.decode (Utf8.encode (0xFEFF :: text1)) = text1
  /\ (forall algorithm,
        cacheKey algorithm (Utf8.encode (0xFEFF :: text1))
        = cacheKey algorithm (Utf8.encode text1)).
Proof.
  intros Hs1 Hs2 Hbom1 Hbom2.
  assert (Hround : forall text,
            Forall Utf8.scalar text -> head text <> Some 0xFEFF ->
            Utf8.decode (Utf8.encode text) = text).
  { intros text Hs Hbom. unfold Utf8.decode. rewrite (run_encode _ Hs).
    destruct text as [|cp rest]; [reflexivity|].
    destruct (Z.eqb_spec cp 0xFEFF) as [->|_]; [|reflexivity].
    exfalso. apply Hbom. reflexivity. }
  assert (Hmark : Utf8.decode (Utf8.encode (0xFEFF :: text1)) = text1).
  { unfold Utf8.decode. rewrite run_encode; [reflexivity|].
    constructor; [right; lia | exact Hs1]. }
  split; [apply Hround; assumption|].
  split; [rewrite !Hround by assumption; intros ->; reflexivity|].
  split; [exact Hmark|].
  intros algorithm. unfold cacheKey, keyText. rewrite Hmark, Hround by assumption.
  reflexivity.
Qed.

(** A run of X17: "h", the euro sign and an emoji, as one, three and
    four bytes. *)
Lemma X17_wellformed_utf8_bodies_witness :
  let text := [104; 0x20AC; 0x1F600] in
  Utf8.encode text = [104; 0xE2; 0x82; 0xAC; 0xF0; 0x9F; 0x98; 0x80]
  /\ Utf8.encode (0xFEFF :: text)
     = [0xEF; 0xBB; 0xBF; 104; 0xE2; 0x82; 0xAC; 0xF0; 0x9F; 0x98; 0x80]
  /\ (Utf8.decode (Utf8.encode text) = text
      /\ (Utf8.decode (Utf8.encode text) = Utf8.decode (Utf8.encode text) ->
          Utf8.encode text = Utf8.encode text)
      /\ Utf8.decode (Utf8.encode (0xFEFF :: text)) = text
      /\ (forall algorithm,
            cacheKey algorithm (Utf8.encode (0xFEFF :: text))
            = cacheKey algorithm (Utf8.encode text))).
Proof.
  intros text. split; [reflexivity|]. split; [reflexivity|].
  apply (X17_wellformed_utf8_bodies text text).
  - repeat constructor; unfold Utf8.scalar; lia.
  - repeat constructor; unfold Utf8.scalar; lia.
  - discriminate.
  - discriminate.
Defined.

(** ** What the middleware does not look at *)

Lemma withVary_other_header (h : gmap string string) (name v : string) :
  name <> "vary" ->
  withVary (<[name := v]> h) = <[name := v]> (withVary h).
Proof.
  intros Hname. unfold withVary, Headers.get, Headers.set.
  change (JS.toLowerCase "Vary") with "vary".
  rewrite lookup_insert_ne by exact Hname.
  destruct (JS.truthy (h !! "vary")); [destruct (negb _)|];
    try reflexivity; apply insert_insert_ne; congruence.
Qed.

Lemma rewritten_ignores_content_encoding encoding compressed next v :
  rewritten encoding compressed
    {| status := status next; statusText := statusText next;
       headers := <["content-encoding" := v]> (headers next);
       body := body next |}
  = rewritten encoding compressed next.
Proof.
  unfold rewritten. simpl. f_equal.
  rewrite withVary_other_header by discriminate.
  unfold Headers.set. apply insert_insert_eq.
Qed.

(** X18. The middleware never looks at a [Content-Encoding] the response
    already has: it gives it no pass, and overwrites it.  A response that
    already says [Content-Encoding: v] leads to the same shared state, the
    same error, and, when the response is rewritten, the very same
    response as the one without that header: an already encoded body is
    compressed once more and labelled with the new encoding only. *)
Theorem X18_existing_content_encoding `{NodeZlib} (options : option Opt.t)
    (req : Request) (next : Response) (clock : Clock) (w : World) (v : string) :
  let encoded :=
    {| status := status next; statusText := statusText next;
       headers := <["content-encoding" := v]> (headers next);
       body := body next |} in
  (compression options req encoded clock w).2
  = (compression options req next clock w).2
  /\ (forall error,
        (compression options req next clock w).1 = Throw error <->
        (compression options req encoded clock w).1 = Throw error)
  /\ (forall encoding compressed,
        (compression options req next clock w).1
        = Normal (rewritten encoding compressed next) ->
        (compression options req next clock w).1 <> Normal next ->
        (compression options req encoded clock w).1
        = Normal (rewritten encoding compressed next)).
Proof.
  intros encoded. unfold compression.
  change (ok encoded) with (ok next).
  change (body encoded) with (body next).
  assert (Htype : Headers.get (headers encoded) "Content-Type"
                  = Headers.get (headers next) "Content-Type")
    by (apply lookup_insert_ne; discriminate).
  rewrite Htype.
  assert (Hsame : forall e c, newResponse e c encoded = newResponse e c next).
  { intros e c. unfold newResponse. change (status encoded) with (status next).
    unfold encoded. rewrite rewritten_ignores_content_encoding. reflexivity. }
  destruct (disableByHeader options && _);
    [simpl; split; [reflexivity|]; split; [split; discriminate|];
     intros e c Hr Hn; contradiction|].
  destruct (negb (ok next));
    [simpl; split; [reflexivity|]; split; [split; discriminate|];
     intros e c Hr Hn; contradiction|].
  destruct (negotiated options req) as [|encoding rest];
    [simpl; split; [reflexivity|]; split; [split; discriminate|];
     intros e c Hr Hn; contradiction|].
  destruct (compressStream options && _).
  { cbn [fst snd]. rewrite Hsame. split; [reflexivity|].
    split; [intros error; reflexivity|]. intros e c Hr _. exact Hr. }
  destruct (_ <? threshold options);
    [simpl; split; [reflexivity|]; split; [split; discriminate|];
     intros e c Hr Hn; contradiction|].
  destruct (negb _);
    [simpl; split; [reflexivity|]; split; [split; discriminate|];
     intros e c Hr Hn; contradiction|].
  destruct (getOrCompress options encoding _ clock w) as [[c0|e0] w1];
    cbn [fst snd].
  - rewrite Hsame. split; [reflexivity|].
    split; [intros error; reflexivity|]. intros e c Hr _. exact Hr.
  - split; [reflexivity|]. split; [reflexivity|]. intros e c Hr. discriminate.
Qed.

(** X19. With stream compression off, how the body arrives does not
    matter: a stream body is read to its end and handled exactly as the
    same bytes in one buffer, with the same shared state, the same error
    and, when the response is rewritten, the very same response. *)
Theorem X19_chunks_do_not_matter `{NodeZlib} (options : option Opt.t)
    (req : Request) (next : Response) (clock : Clock) (w : World) :
  compressStream options = false ->
  let buffered :=
    {| status := status next; statusText := statusText next;
       headers := headers next;
       body := BodyBytes (arrayBuffer (body next)) |} in
  (compression options req buffered clock w).2
  = (compression options req next clock w).2
  /\ (forall error,
        (compression options req next clock w).1 = Throw error <->
        (compression options req buffered clock w).1 = Throw error)
  /\ (forall encoding compressed,
        (compression options req next clock w).1
        = Normal (rewritten encoding compressed next) ->
        (compression options req next clock w).1 <> Normal next ->
        (compression options req buffered clock w).1
        = Normal (rewritten encoding compressed next)).
Proof.
  intros Hflag buffered. unfold compression. rewrite Hflag.
  change (ok buffered) with (ok next).
  change (headers buffered) with (headers next).
  change (arrayBuffer (body buffered)) with (arrayBuffer (body next)).
  assert (Hsame : forall e c, newResponse e c buffered = newResponse e c next)
    by reflexivity.
  destruct (disableByHeader options && _);
    [simpl; split; [reflexivity|]; split; [split; discriminate|];
     intros e c Hr Hn; contradiction|].
  destruct (negb (ok next));
    [simpl; split; [reflexivity|]; split; [split; discriminate|];
     intros e c Hr Hn; contradiction|].
  destruct (negotiated options req) as [|encoding rest];
    [simpl; split; [reflexivity|]; split; [split; discriminate|];
     intros e c Hr Hn; contradiction|].
  simpl.
  destruct (_ <? threshold options);
    [simpl; split; [reflexivity|]; split; [split; discriminate|];
     intros e c Hr Hn; contradiction|].
  destruct (negb _);
    [simpl; split; [reflexivity|]; split; [split; discriminate|];
     intros e c Hr Hn; contradiction|].
  destruct (getOrCompress options encoding _ clock w) as [[c0|e0] w1];
    cbn [fst snd].
  - rewrite Hsame. split; [reflexivity|].
    split; [intros error; reflexivity|]. intros e c Hr _. exact Hr.
  - split; [reflexivity|]. split; [reflexivity|]. intros e c Hr. discriminate.
Qed.

(** A run of X19: "hello" in two chunks and in one buffer. *)
Lemma X19_chunks_do_not_matter_witness :
  let next := Example.response (Some "text/plain") None
                (BodyStream [[104; 101]; [108; 108; 111]]) in
  let buffered :=
    {| status := status next; statusText := statusText next;
       headers := headers next;
       body := BodyBytes (arrayBuffer (body next)) |} in
  body buffered = BodyBytes Example.hello
  /\ (compression (Example.buffered 1 6) (Example.request "gzip") next
        (Example.at_time 100) Example.fresh).1
     = Normal (rewritten gzip (BodyBytes (0x1F :: 6 :: Example.hello)) next)
  /\ (compression (Example.buffered 1 6) (Example.request "gzip") buffered
        (Example.at_time 100) Example.fresh).2
     = (compression (Example.buffered 1 6) (Example.request "gzip") next
          (Example.at_time 100) Example.fresh).2
  /\ (compression (Example.buffered 1 6) (Example.request "gzip") buffered
        (Example.at_time 100) Example.fresh).1
     = Normal (rewritten gzip (BodyBytes (0x1F :: 6 :: Example.hello)) next).
Proof.
  intros next buffered.
  pose proof (X19_chunks_do_not_matter (Example.buffered 1 6)
                (Example.request "gzip") next (Example.at_time 100)
                Example.fresh eq_refl) as (Hstate & _ & Hresponse).
  split; [reflexivity|]. split; [vm_compute; reflexivity|].
  split; [exact Hstate|].
  apply Hresponse; [vm_compute; reflexivity|].
  intros Heq. vm_compute in Heq. discriminate.
Defined.

(** ** The end of the TTL window *)



(** ** Merging [Vary] twice *)

Ltac every_char c :=
  destruct c as [[] [] [] [] [] [] [] []]; vm_compute; try reflexivity; auto.

Lemma lowerChar_idempotent (c : ascii) : JS.lowerChar (JS.lowerChar c) = JS.lowerChar c.
Proof. every_char c. Qed.

Lemma lowerChar_whitespace (c : ascii) :
  JS.isWhiteSpace (JS.lowerChar c) = JS.isWhiteSpace c.
Proof. every_char c. Qed.

Lemma lowerChar_comma (c : ascii) :
  Ascii.eqb "," (JS.lowerChar c) = Ascii.eqb "," c.
Proof. every_char c. Qed.

Lemma http_is_whitespace (c : ascii) :
  Headers.isHttpWhitespace c = true -> JS.isWhiteSpace c = true.
Proof. every_char c. Qed.

Lemma toLowerCase_idempotent (s : string) :
  JS.toLowerCase (JS.toLowerCase s) = JS.toLowerCase s.
Proof.
  induction s as [|c s IH]; simpl; [reflexivity|].
  rewrite lowerChar_idempotent, IH. reflexivity.
Qed.

(** What [stripEnd] leaves has nothing to strip at its end, also after
    [toLowerCase] and for a narrower set of characters. *)
Lemma stripEnd_settled (p : ascii -> bool) (s : string) :
  (forall c, p (JS.lowerChar c) = true -> JS.isWhiteSpace c = true) ->
  JS.stripEnd p (JS.toLowerCase (JS.stripEnd JS.isWhiteSpace s))
  = JS.toLowerCase (JS.stripEnd JS.isWhiteSpace s).
Proof.
  intros Hp. induction s as [|c s IH]; [reflexivity|].
  change (JS.stripEnd JS.isWhiteSpace (String c s))
    with (match JS.stripEnd JS.isWhiteSpace s with
          | EmptyString =>
              if JS.isWhiteSpace c then EmptyString else String c EmptyString
          | String d t => String c (String d t)
          end).
  destruct (JS.stripEnd JS.isWhiteSpace s) as [|d t].
  - destruct (JS.isWhiteSpace c) eqn:Hc; [reflexivity|].
    change (JS.toLowerCase (String c EmptyString))
      with (String (JS.lowerChar c) EmptyString).
    change (JS.stripEnd p (String (JS.lowerChar c) EmptyString))
      with (if p (JS.lowerChar c) then EmptyString
            else String (JS.lowerChar c) EmptyString).
    destruct (p (JS.lowerChar c)) eqn:Hpc; [|reflexivity].
    rewrite (Hp c Hpc) in Hc. discriminate.
  - change (JS.toLowerCase (String c (String d t)))
      with (String (JS.lowerChar c) (JS.toLowerCase (String d t))).
    change (JS.stripEnd p (String (JS.lowerChar c) (JS.toLowerCase (String d t))))
      with (match JS.stripEnd p (JS.toLowerCase (String d t)) with
            | EmptyString =>
                if p (JS.lowerChar c) then EmptyString
                else String (JS.lowerChar c) EmptyString
            | String e u => String (JS.lowerChar c) (String e u)
            end).
    rewrite IH. reflexivity.
Qed.

(** What [trim] leaves is empty or starts with a character that is not
    white space. *)
Lemma trim_first (s : string) :
  match JS.trim s with
  | EmptyString => True
  | String c _ => JS.isWhiteSpace c = false
  end.
Proof.
  unfold JS.trim.
  assert (Hstart : match JS.stripStart JS.isWhiteSpace s with
                   | EmptyString => True
                   | String c _ => JS.isWhiteSpace c = false
                   end).
  { induction s as [|c s IH]; simpl; [exact I|].
    destruct (JS.isWhiteSpace c) eqn:Hc; [exact IH | exact Hc]. }
  destruct (JS.stripStart JS.isWhiteSpace s) as [|c u]; [exact I|].
  change (JS.stripEnd JS.isWhiteSpace (String c u))
    with (match JS.stripEnd JS.isWhiteSpace u with
          | EmptyString =>
              if JS.isWhiteSpace c then EmptyString else String c EmptyString
          | String d t => String c (String d t)
          end).
  destruct (JS.stripEnd JS.isWhiteSpace u); [rewrite Hstart|]; exact Hstart.
Qed.

(** A token as the merge writes it: trimmed and in lower case. *)
Lemma token_fixed (s : string) :
  let t := JS.toLowerCase (JS.trim s) in
  JS.toLowerCase (JS.trim t) = t
  /\ JS.stripEnd Headers.isHttpWhitespace t = t
  /\ match t with
     | EmptyString => True
     | String c _ => JS.isWhiteSpace c = false
     end.
Proof.
  intros t.
  assert (Hfirst : match t with
                   | EmptyString => True
                   | String c _ => JS.isWhiteSpace c = false
                   end).
  { subst t. pose proof (trim_first s) as Hs.
    destruct (JS.trim s) as [|c u]; [exact I|]. simpl.
    rewrite lowerChar_whitespace. exact Hs. }
  assert (Hend : forall p,
            (forall c, p (JS.lowerChar c) = true -> JS.isWhiteSpace c = true) ->
            JS.stripEnd p t = t)
    by (intros p Hp; apply stripEnd_settled, Hp).
  split; [|split; [|exact Hfirst]].
  - unfold JS.trim at 1.
    assert (Hstart : JS.stripStart JS.isWhiteSpace t = t).
    { destruct t as [|c u]; [reflexivity|]. simpl. rewrite Hfirst. reflexivity. }
    rewrite Hstart, Hend.
    + apply toLowerCase_idempotent.
    + intros c Hc. rewrite lowerChar_whitespace in Hc. exact Hc.
  - apply Hend. intros c Hc. apply http_is_whitespace in Hc.
    rewrite lowerChar_whitespace in Hc. exact Hc.
Qed.

Lemma hasChar_stripStart (c : ascii) (p : ascii -> bool) (s : string) :
  JS.hasChar c s = false -> JS.hasChar c (JS.stripStart p s) = false.
Proof.
  induction s as [|d s IH]; [reflexivity|].
  change (JS.hasChar c (String d s)) with (Ascii.eqb c d || JS.hasChar c s).
  intros Hs. simpl. destruct (p d); [|exact Hs].
  apply IH. apply orb_false_iff in Hs as [_ Hs]. exact Hs.
Qed.

Lemma hasChar_stripEnd (c : ascii) (p : ascii -> bool) (s : string) :
  JS.hasChar c s = false -> JS.hasChar c (JS.stripEnd p s) = false.
Proof.
  induction s as [|d s IH]; [reflexivity|].
  change (JS.hasChar c (String d s)) with (Ascii.eqb c d || JS.hasChar c s).
  intros Hs. apply orb_false_iff in Hs as [Hd Hs]. specialize (IH Hs).
  change (JS.stripEnd p (String d s))
    with (match JS.stripEnd p s with
          | EmptyString => if p d then EmptyString else String d EmptyString
          | String e t => String d (String e t)
          end).
  destruct (JS.stripEnd p s) as [|e t].
  - destruct (p d); [reflexivity|].
    change (Ascii.eqb c d || false = false). rewrite Hd. reflexivity.
  - change (Ascii.eqb c d || JS.hasChar c (String e t) = false).
    rewrite Hd, IH. reflexivity.
Qed.

Lemma hasChar_comma_lower (s : string) :
  JS.hasChar "," (JS.toLowerCase s) = JS.hasChar "," s.
Proof.
  induction s as [|d s IH]; [reflexivity|].
  change (Ascii.eqb "," (JS.lowerChar d) || JS.hasChar "," (JS.toLowerCase s)
          = Ascii.eqb "," d || JS.hasChar "," s).
  rewrite lowerChar_comma, IH. reflexivity.
Qed.

(** The pieces [split(',')] gives hold no comma. *)
Lemma split_comma_pieces (s : string) :
  Forall (fun piece => JS.hasChar "," piece = false) (JS.split "," s).
Proof.
  unfold JS.split. induction s as [|c s IH]; [repeat constructor|].
  change (JS.split_from "," 0 (String c s))
    with (if Ascii.eqb "," c && true
          then EmptyString :: JS.split_from "," 0 s
          else match JS.split_from "," 0 s with
               | piece :: rest => String c piece :: rest
               | [] => [String c EmptyString]
               end).
  rewrite andb_true_r. destruct (Ascii.eqb "," c) eqn:Hc.
  - constructor; [reflexivity | exact IH].
  - destruct (JS.split_from "," 0 s) as [|piece rest].
    + constructor; [|constructor].
      change (Ascii.eqb "," c || false = false). rewrite Hc. reflexivity.
    + inversion IH as [|? ? Hpiece Hrest]; subst. constructor; [|exact Hrest].
      change (Ascii.eqb "," c || JS.hasChar "," piece = false).
      rewrite Hc, Hpiece. reflexivity.
Qed.

(** The tokens of a [Vary] value, as line 172 leaves them. *)
Lemma varyTokens_settled (v : string) :
  Forall settled (varyTokens v).
Proof.
  unfold varyTokens. apply Forall_map. pose proof (split_comma_pieces v) as Hp.
  induction Hp as [|piece rest Hpiece _ IH]; constructor; [|exact IH].
  split; [|apply token_fixed].
  rewrite hasChar_comma_lower. unfold JS.trim.
  apply hasChar_stripEnd, hasChar_stripStart, Hpiece.
Qed.

(** Splitting on a comma runs over a piece without a comma. *)
Lemma split_comma_past (t s : string) :
  JS.hasChar "," t = false ->
  JS.split "," (t +:+ s)
  = match JS.split "," s with
    | piece :: rest => (t +:+ piece) :: rest
    | [] => [t]
    end.
Proof.
  unfold JS.split. induction t as [|c t IH]; intros Ht.
  - change (EmptyString +:+ s) with s.
    destruct (JS.split_from "," 0 s) eqn:Hs; [|reflexivity].
    exfalso. exact (split_from_nonempty _ _ _ Hs).
  - change (Ascii.eqb "," c || JS.hasChar "," t = false) in Ht.
    apply orb_false_iff in Ht as [Hc Ht].
    change (String c t +:+ s) with (String c (t +:+ s)).
    change (JS.split_from "," 0 (String c (t +:+ s)))
      with (if Ascii.eqb "," c && true
            then EmptyString :: JS.split_from "," 0 (t +:+ s)
            else match JS.split_from "," 0 (t +:+ s) with
                 | piece :: rest => String c piece :: rest
                 | [] => [String c EmptyString]
                 end).
    rewrite Hc, (IH Ht). simpl.
    destruct (JS.split_from "," 0 s); reflexivity.
Qed.

Lemma split_join_comma (pieces : list string) :
  pieces <> [] ->
  Forall (fun t => JS.hasChar "," t = false) pieces ->
  JS.split "," (JS.join "," pieces) = pieces.
Proof.
  induction pieces as [|t rest IH]; intros Hne Hclean; [contradiction|].
  inversion Hclean as [|? ? Ht Hrest]; subst.
  destruct rest as [|t2 rest].
  - pose proof (split_comma_past t EmptyString Ht) as Hsplit.
    rewrite append_empty_r in Hsplit.
    change (JS.split "," t = [t +:+ EmptyString]) in Hsplit.
    rewrite append_empty_r in Hsplit. exact Hsplit.
  - change (JS.join "," (t :: t2 :: rest))
      with (t +:+ "," +:+ JS.join "," (t2 :: rest)).
    rewrite (split_comma_past _ _ Ht).
    change (JS.split "," ("," +:+ JS.join "," (t2 :: rest)))
      with (EmptyString :: JS.split "," (JS.join "," (t2 :: rest))).
    cbv beta iota.
    rewrite append_empty_r, IH; [reflexivity | discriminate | exact Hrest].
Qed.

(** Joining with comma-space is joining with a comma the pieces that
    carry the space. *)
Lemma join_spaced (x t : string) (rest : list string) :
  x +:+ JS.join ", " (t :: rest)
  = JS.join "," ((x +:+ t) :: map (String " ") rest).
Proof.
  revert x t. induction rest as [|t2 rest IH]; intros x t; [reflexivity|].
  change (JS.join ", " (t :: t2 :: rest))
    with (t +:+ ", " +:+ JS.join ", " (t2 :: rest)).
  change (JS.join "," ((x +:+ t) :: map (String " ") (t2 :: rest)))
    with ((x +:+ t) +:+ "," +:+ JS.join "," (String " " t2 :: map (String " ") rest)).
  change (String " " t2) with (" " +:+ t2).
  rewrite <- (IH " " t2). rewrite string_append_assoc. reflexivity.
Qed.

Lemma join_snoc (sep : string) (l : list string) (t : string) :
  l <> [] -> JS.join sep (l ++ [t]) = JS.join sep l +:+ sep +:+ t.
Proof.
  induction l as [|x l IH]; intros Hne; [contradiction|].
  destruct l as [|y l]; [reflexivity|].
  change (JS.join sep ((x :: y :: l) ++ [t]))
    with (x +:+ sep +:+ JS.join sep ((y :: l) ++ [t])).
  rewrite IH by discriminate.
  change (JS.join sep (x :: y :: l)) with (x +:+ sep +:+ JS.join sep (y :: l)).
  rewrite !string_append_assoc. reflexivity.
Qed.

Lemma stripEnd_app (p : ascii -> bool) (a b : string) :
  JS.stripEnd p (a +:+ b)
  = match JS.stripEnd p b with
    | EmptyString => JS.stripEnd p a
    | String c t => a +:+ String c t
    end.
Proof.
  induction a as [|x a IH].
  - change (EmptyString +:+ b) with b. destruct (JS.stripEnd p b); reflexivity.
  - change (String x a +:+ b) with (String x (a +:+ b)).
    change (JS.stripEnd p (String x (a +:+ b)))
      with (match JS.stripEnd p (a +:+ b) with
            | EmptyString => if p x then EmptyString else String x EmptyString
            | String e t => String x (String e t)
            end).
    rewrite IH. destruct (JS.stripEnd p b) as [|c t]; [reflexivity|].
    destruct a; reflexivity.
Qed.

(** The merged value, sent through [Headers.set] and parsed again, gives
    the tokens it was joined from. *)
Lemma settled_reparsed (t1 : string) (rest : list string) :
  Forall settled (t1 :: rest) ->
  varyTokens (Headers.normalize (JS.join ", " (t1 :: rest))) = t1 :: rest.
Proof.
  intros Hall. inversion Hall as [|? ? H1 Hrest]; subst.
  destruct H1 as (Hcomma1 & Hfix1 & Hend1 & Hfirst1).
  assert (Hstart : JS.stripStart Headers.isHttpWhitespace (JS.join ", " (t1 :: rest))
                   = JS.join ", " (t1 :: rest)).
  { destruct t1 as [|c u].
    - destruct rest; reflexivity.
    - assert (Hc : Headers.isHttpWhitespace c = false).
      { destruct (Headers.isHttpWhitespace c) eqn:Hc; [|reflexivity].
        rewrite (http_is_whitespace c Hc) in Hfirst1. discriminate. }
      destruct rest; simpl; rewrite Hc; reflexivity. }
  unfold Headers.normalize. rewrite Hstart. clear Hstart.
  assert (Hpieces : forall (pieces : list string),
            pieces <> [] ->
            Forall (fun t => JS.hasChar "," t = false) pieces ->
            varyTokens (JS.join "," pieces)
            = map (fun v => JS.toLowerCase (JS.trim v)) pieces).
  { intros pieces Hne Hclean. unfold varyTokens.
    rewrite split_join_comma by assumption. reflexivity. }
  assert (Hspaced : forall l, Forall settled l ->
            Forall (fun t => JS.hasChar "," t = false) (map (String " ") l)
            /\ map (fun v => JS.toLowerCase (JS.trim v)) (map (String " ") l) = l).
  { induction 1 as [|t l (Hc & Hf & _) _ [IHc IHf]]; [split; constructor|].
    split; [constructor; [exact Hc | exact IHc]|].
    simpl map. f_equal; [exact Hf | exact IHf]. }
  destruct rest as [|t2 rest0].
  { simpl JS.join. rewrite Hend1.
    assert (Hone : Forall (fun t => JS.hasChar "," t = false) [t1])
      by (repeat constructor; exact Hcomma1).
    pose proof (Hpieces [t1] ltac:(discriminate) Hone) as Hp.
    change (JS.join "," [t1]) with t1 in Hp.
    rewrite Hp. simpl. rewrite Hfix1. reflexivity. }
  destruct (exists_last (l := t2 :: rest0) ltac:(discriminate)) as (rest' & tk & Hlast).
  rewrite Hlast in *. clear Hlast t2 rest0.
  apply Forall_app in Hrest as [Hrest' Htk].
  inversion Htk as [|? ? (Hcommak & Hfixk & Hendk & Hfirstk) _]; subst.
  destruct (Hspaced rest' Hrest') as [Hclean' Hmap'].
  change (t1 :: rest' ++ [tk]) with ((t1 :: rest') ++ [tk]) at 1.
  rewrite join_snoc by discriminate.
  rewrite stripEnd_app.
  pose proof (join_spaced EmptyString t1 rest') as Hjoin.
  change (EmptyString +:+ JS.join ", " (t1 :: rest'))
    with (JS.join ", " (t1 :: rest')) in Hjoin.
  change (EmptyString +:+ t1) with t1 in Hjoin.
  destruct tk as [|e u].
  - change (JS.stripEnd Headers.isHttpWhitespace (", " +:+ EmptyString))
      with ",".
    cbv beta iota.
    assert (Hshape : JS.join ", " (t1 :: rest') +:+ ","
                     = JS.join "," ((t1 :: map (String " ") rest') ++ [EmptyString])).
    { rewrite join_snoc by discriminate. rewrite <- Hjoin. reflexivity. }
    rewrite Hshape, Hpieces.
    + rewrite map_app. simpl map. rewrite Hfix1, Hmap'. reflexivity.
    + discriminate.
    + simpl. constructor; [exact Hcomma1|].
      apply Forall_app. split; [exact Hclean' | repeat constructor].
  - assert (Hkeep : JS.stripEnd Headers.isHttpWhitespace (", " +:+ String e u)
                    = ", " +:+ String e u).
    { change (", " +:+ String e u) with (String "," (String " " (String e u))).
      change (JS.stripEnd Headers.isHttpWhitespace
                (String "," (String " " (String e u))))
        with (match
                match JS.stripEnd Headers.isHttpWhitespace (String e u) with
                | EmptyString => EmptyString
                | String x y => String " " (String x y)
                end
              with
              | EmptyString => ","
              | String x y => String "," (String x y)
              end).
      rewrite Hendk. reflexivity. }
    rewrite Hkeep.
    change (", " +:+ String e u) with (String "," (String " " (String e u))).
    cbv beta iota.
    assert (Hshape : JS.join ", " (t1 :: rest')
                       +:+ String "," (String " " (String e u))
                     = JS.join "," ((t1 :: map (String " ") rest')
                                      ++ [String " " (String e u)])).
    { rewrite join_snoc by discriminate. rewrite <- Hjoin. reflexivity. }
    rewrite Hshape, Hpieces.
    + rewrite map_app. simpl map. rewrite Hfix1, Hmap'.
      change (JS.trim (String " " (String e u))) with (JS.trim (String e u)).
      rewrite Hfixk. reflexivity.
    + discriminate.
    + simpl. constructor; [exact Hcomma1|].
      apply Forall_app. split; [exact Hclean'|].
      constructor; [exact Hcommak | constructor].
Qed.

Lemma settled_accept_encoding : settled "accept-encoding".
Proof. repeat split; reflexivity. Qed.

(** The array joined into the new [Vary] value, when no token is [*]:
    settled tokens without repetition, [accept-encoding] among them and
    [*] not, which the merge would leave as they are. *)
Lemma merged_is_stable (tokens : list string) :
  Forall settled tokens ->
  JS.includes tokens "*" = false ->
  let merged :=
    JS.filter_indexed (fun value index array => JS.indexOf array value =? index)
      (tokens ++ ["accept-encoding"]) in
  Forall settled merged
  /\ "accept-encoding" ∈ merged
  /\ JS.includes merged "*" = false
  /\ JS.filter_indexed (fun value index array => JS.indexOf array value =? index)
       (merged ++ ["accept-encoding"]) = merged.
Proof.
  intros Hsettled Hstar merged.
  destruct (merged_tokens tokens) as (kept & Hmerged & Hnodup & _ & Hmem & _).
  fold merged in Hmerged.
  assert (Hin : forall t, t ∈ merged -> t ∈ tokens \/ t = "accept-encoding").
  { intros t. rewrite Hmerged, elem_of_app, Hmem.
    destruct (JS.includes tokens "accept-encoding");
      rewrite ?elem_of_nil, ?list_elem_of_singleton; tauto. }
  assert (Hae : "accept-encoding" ∈ merged).
  { rewrite Hmerged, elem_of_app, Hmem.
    destruct (JS.includes tokens "accept-encoding") eqn:Hinc.
    - left. apply includes_spec, Hinc.
    - right. apply list_elem_of_singleton. reflexivity. }
  assert (Hnd : NoDup merged).
  { rewrite Hmerged.
    destruct (JS.includes tokens "accept-encoding") eqn:Hinc.
    - rewrite app_nil_r. exact Hnodup.
    - apply NoDup_app. split; [exact Hnodup|]. split; [|apply NoDup_singleton].
      intros t Ht Hsingle. apply list_elem_of_singleton in Hsingle. subst t.
      apply includes_false in Hinc. apply Hinc, Hmem, Ht. }
  split; [|split; [exact Hae|split]].
  - apply Forall_forall. intros t Ht.
    destruct (Hin t Ht) as [Htok | ->]; [|exact settled_accept_encoding].
    rewrite Forall_forall in Hsettled. apply Hsettled, Htok.
  - apply includes_false. intros Hm.
    destruct (Hin _ Hm) as [Htok | Heq]; [|discriminate].
    apply includes_false in Hstar. contradiction.
  - destruct (merged_tokens merged) as (kept2 & Hagain & _ & _ & _ & Hsame & _).
    rewrite Hagain, (Hsame Hnd).
    apply includes_spec in Hae. rewrite Hae. apply app_nil_r.
Qed.

(** X21. Merging [Vary] is idempotent: the headers the merge has gone
    over once are left as they are by a second merge.  So a response that
    passes the middleware twice carries the same [Vary] and
    [Content-Encoding] headers as after the first pass. *)
Theorem X21_vary_merge_idempotent (h : gmap string string)
    (encoding : CompressionEncoding) (compressed1 compressed2 : Body)
    (next : Response) :
  withVary (withVary h) = withVary h
  /\ headers (rewritten encoding compressed2 (rewritten encoding compressed1 next))
     = headers (rewritten encoding compressed1 next).
Proof.
  assert (Hidem : forall h0 : gmap string string, withVary (withVary h0) = withVary h0).
  { intros h0.
    destruct (JS.truthy (Headers.get h0 "Vary")) eqn:Htruthy.
    - set (tokens := varyTokens (Headers.get h0 "Vary" ?? EmptyString)).
      destruct (JS.includes tokens "*") eqn:Hstar.
      + assert (Hone : withVary h0 = h0).
        { unfold withVary. rewrite Htruthy. fold tokens. rewrite Hstar.
          reflexivity. }
        rewrite !Hone. reflexivity.
      + pose proof (merged_is_stable tokens (varyTokens_settled _) Hstar)
          as (Hsettled & Hae & Hnostar & Hstable).
        set (merged := JS.filter_indexed _ (tokens ++ ["accept-encoding"])) in *.
        assert (Hone : withVary h0
                       = <["vary" := Headers.normalize (JS.join ", " merged)]> h0).
        { unfold withVary. rewrite Htruthy. fold tokens. rewrite Hstar.
          reflexivity. }
        rewrite !Hone. clear Hone.
        destruct merged as [|t1 rest]; [inversion Hae|].
        pose proof (settled_reparsed t1 rest Hsettled) as Hre.
        set (R := Headers.normalize (JS.join ", " (t1 :: rest))) in *.
        assert (HR : R <> EmptyString).
        { intros HR. rewrite HR in Hre. change (varyTokens EmptyString)
            with [EmptyString] in Hre. rewrite <- Hre in Hae.
          apply list_elem_of_singleton in Hae. discriminate. }
        unfold withVary, Headers.get, Headers.set.
        change (JS.toLowerCase "Vary") with "vary".
        rewrite lookup_insert_eq. simpl JS.truthy.
        destruct (String.eqb_spec R EmptyString) as [|_]; [contradiction|].
        simpl negb. cbv iota. simpl nullish. rewrite Hre, Hnostar.
        simpl negb. cbv iota. unfold mergedVary. rewrite Hstable. fold R.
        apply insert_insert_eq.
    - assert (Hone : withVary h0 = <["vary" := "accept-encoding"]> h0).
      { unfold withVary. rewrite Htruthy. reflexivity. }
      rewrite !Hone. clear Hone.
      unfold withVary, Headers.get, Headers.set.
      change (JS.toLowerCase "Vary") with "vary".
      rewrite lookup_insert_eq.
      change (JS.truthy (Some "accept-encoding")) with true. cbv iota.
      change (varyTokens (Some "accept-encoding" ?? EmptyString))
        with ["accept-encoding"].
      change (JS.includes ["accept-encoding"] "*") with false.
      simpl negb. cbv iota.
      change (Headers.normalize (mergedVary ["accept-encoding"]))
        with "accept-encoding".
      apply insert_insert_eq. }
  split; [apply Hidem|].
  unfold rewritten. simpl headers. unfold Headers.set at 2.
  rewrite withVary_other_header by (destruct encoding; discriminate).
  rewrite Hidem. unfold Headers.set. apply insert_insert_eq.
Qed.

(** ** The [as] option *)

(** X22. The middleware computes [lifeCycleType] from the [as] option
    and never reads it: on the buffered path (where the options are not
    handed to [CompressionStream]) two instances whose options differ in
    [as] only do the same to every request. *)
Theorem X22_as_option_unused `{NodeZlib} (o : Opt.t) (order : option LifeCycle)
    (req : Request) (next : Response) (clock : Clock) (w : World) :
  let o' := {| Opt.brotliOptions := Opt.brotliOptions o;
               Opt.zlibOptions := Opt.zlibOptions o;
               Opt.encodings := Opt.encodings o;
               Opt.disableByHeader := Opt.disableByHeader o;
               Opt.threshold := Opt.threshold o;
               Opt.compressStream := Opt.compressStream o;
               Opt.as_ := order;
               Opt.TTL := Opt.TTL o |} in
  compressStream (Some o) && isReadableStream (body next) = false ->
  lifeCycleType (Some o') = order ?? after
  /\ compression (Some o') req next clock w = compression (Some o) req next clock w.
Proof.
  intros o' Hstream. split; [reflexivity|]. unfold compression.
  change (compressStream (Some o')) with (compressStream (Some o)).
  rewrite Hstream. reflexivity.
Qed.

(** A run of X22: [as: 'before'] against no [as]. *)
Lemma X22_as_option_unused_witness :
  let o := {| Opt.brotliOptions := None;
              Opt.zlibOptions := None;
              Opt.encodings := None;
              Opt.disableByHeader := None;
              Opt.threshold := Some 1;
              Opt.compressStream := Some false;
              Opt.as_ := None;
              Opt.TTL := None |} in
  let o' := {| Opt.brotliOptions := Opt.brotliOptions o;
               Opt.zlibOptions := Opt.zlibOptions o;
               Opt.encodings := Opt.encodings o;
               Opt.disableByHeader := Opt.disableByHeader o;
               Opt.threshold := Opt.threshold o;
               Opt.compressStream := Opt.compressStream o;
               Opt.as_ := Some before;
               Opt.TTL := Opt.TTL o |} in
  let next := Example.response (Some "text/plain") None (BodyBytes Example.hello) in
  lifeCycleType (Some o') = Some before ?? after
  /\ compression (Some o') (Example.request "gzip") next (Example.at_time 100)
       Example.fresh
     = compression (Some o) (Example.request "gzip") next (Example.at_time 100)
         Example.fresh.
Proof.
  intros o o' next.
  apply (X22_as_option_unused o (Some before) (Example.request "gzip") next
           (Example.at_time 100) Example.fresh).
  reflexivity.
Defined.
